(** * ExpenseTracker: the date type, the CSV codec, the record store and
      its persistence, embedded from [expense_tracker.cpp].

    Conventions of the embedding.
    - [std::string] is a sequence of bytes: Rocq's [string] over [ascii].
    - [int] is modelled by [Z]; where the library function checks the [int]
      range ([std::stoi]) the check is written out.
    - [double] is IEEE binary64: Rocq's primitive [float].
    - Exceptions caught by [catch (...)] and empty [std::optional] are [None].
    - The file system is a finite map from paths to file contents. *)

From Stdlib Require Import PrimFloat SpecFloat FloatOps.
From Stdlib Require Import ZArith Lia List Bool Ascii String Sorted.
From stdpp Require Import base option strings gmap.
Import ListNotations.

Local Open Scope string_scope.
Local Open Scope list_scope.
Local Open Scope Z_scope.

(** ** Characters *)

Definition ch_quote : ascii := ascii_of_nat 34.
Definition ch_comma : ascii := ","%char.
Definition ch_dash  : ascii := "-"%char.
Definition ch_plus  : ascii := "+"%char.
Definition ch_zero  : ascii := "0"%char.
Definition ch_lf    : ascii := ascii_of_nat 10.
Definition ch_cr    : ascii := ascii_of_nat 13.

Definition code (c : ascii) : Z := Z.of_N (N_of_ascii c).

(** [std::isspace] in the "C" locale: space, \t, \n, \v, \f, \r. *)
Definition isspace (c : ascii) : bool :=
  (code c =? 32) || ((9 <=? code c) && (code c <=? 13)).

Definition isdigit (c : ascii) : bool :=
  (48 <=? code c) && (code c <=? 57).

Definition digit_val (c : ascii) : Z := code c - 48.

Definition digit_char (d : Z) : ascii := ascii_of_N (Z.to_N (48 + d)).

(** [std::tolower] in the "C" locale, as applied to an [unsigned char]. *)
Definition tolower (c : ascii) : ascii :=
  if (65 <=? code c) && (code c <=? 90)
  then ascii_of_N (Z.to_N (code c + 32)) else c.

(** ** Strings: the [std::string] members the program uses *)

Definition size (s : string) : Z := Z.of_nat (String.length s).

Definition at_ (s : string) (i : nat) : ascii :=
  match String.get i s with Some c => c | None => Ascii.zero end.

Definition substr (s : string) (pos len : nat) : string :=
  String.substring pos len s.

Fixpoint back (s : string) : ascii :=
  match s with
  | "" => Ascii.zero
  | String c "" => c
  | String _ s' => back s'
  end.

Fixpoint pop_back (s : string) : string :=
  match s with
  | "" => ""
  | String _ "" => ""
  | String c s' => String c (pop_back s')
  end.

Definition push_back (s : string) (c : ascii) : string := s +:+ String c "".

(** ** [std::stoi] (base 10), with its exceptions as [None] *)

Definition INT_MIN : Z := - 2147483648.
Definition INT_MAX : Z := 2147483647.

Fixpoint skip_space (s : string) : string :=
  match s with
  | String c s' => if isspace c then skip_space s' else s
  | "" => ""
  end.

(** The longest run of decimal digits at the front of [s], accumulated. *)
Fixpoint digits_acc (s : string) (acc : Z) : Z :=
  match s with
  | String c s' => if isdigit c then digits_acc s' (acc * 10 + digit_val c) else acc
  | "" => acc
  end.

Definition starts_with_digit (s : string) : bool :=
  match s with String c _ => isdigit c | "" => false end.

(** [strtol]: leading white space, an optional sign, then digits; parsing
    stops at the first character that is not a digit.  [stoi] throws
    [invalid_argument] when there is no digit and [out_of_range] when the
    value does not fit an [int]. *)
Definition stoi (s : string) : option Z :=
  let s1 := skip_space s in
  let '(neg, s2) :=
    match s1 with
    | String c r => if Ascii.eqb c ch_dash then (true, r)
                    else if Ascii.eqb c ch_plus then (false, r)
                    else (false, s1)
    | "" => (false, s1)
    end in
  if starts_with_digit s2 then
    let v := digits_acc s2 0 in
    let r := if neg then - v else v in
    if (INT_MIN <=? r) && (r <=? INT_MAX) then Some r else None
  else None.

(** ** [operator<<] for an [int] with [std::setw] and [std::setfill] *)

(** Decimal digits of a non-negative number, most significant first.  An
    [int] has at most ten of them. *)
Fixpoint show_digits (fuel : nat) (n : Z) (acc : string) : string :=
  match fuel with
  | O => acc
  | S f =>
      let acc' := String (digit_char (n mod 10)) acc in
      if n <? 10 then acc' else show_digits f (n / 10) acc'
  end.

Definition show_int (n : Z) : string :=
  if n <? 0 then String ch_dash (show_digits 10 (- n) "")
  else show_digits 10 n "".

Fixpoint fill (n : nat) (c : ascii) : string :=
  match n with O => "" | S k => String c (fill k c) end.

(** Right adjustment (the default): the fill characters go in front. *)
Definition setw_fill (w : nat) (c : ascii) (s : string) : string :=
  fill (w - String.length s)%nat c +:+ s.

(** ** Date *)

Record Date := mkDate { y : Z; m : Z; d : Z }.

Definition is_leap (yr : Z) : bool :=
  ((Z.rem yr 4 =? 0) && negb (Z.rem yr 100 =? 0)) || (Z.rem yr 400 =? 0).

Definition md : list Z := [31;28;31;30;31;30;31;31;30;31;30;31].

Definition valid_date (dt : Date) : bool :=
  if (y dt <? 1900) || (m dt <? 1) || (m dt >? 12) || (d dt <? 1) then false
  else
    let days := nth (Z.to_nat (m dt - 1)) md 0
                + (if (m dt =? 2) && is_leap (y dt) then 1 else 0) in
    d dt <=? days.

Definition parse_date (s : string) : option Date :=
  if negb (size s =? 10) || negb (Ascii.eqb (at_ s 4) ch_dash)
     || negb (Ascii.eqb (at_ s 7) ch_dash) then None
  else
    match stoi (substr s 0 4) with
    | None => None
    | Some yv =>
        match stoi (substr s 5 2) with
        | None => None
        | Some mv =>
            match stoi (substr s 8 2) with
            | None => None
            | Some dv =>
                let dt := mkDate yv mv dv in
                if valid_date dt then Some dt else None
            end
        end
    end.

Definition to_string (dt : Date) : string :=
  setw_fill 4 ch_zero (show_int (y dt)) +:+ "-"
  +:+ setw_fill 2 ch_zero (show_int (m dt)) +:+ "-"
  +:+ setw_fill 2 ch_zero (show_int (d dt)).

Definition date_le (a b : Date) : bool :=
  (y a <? y b)
  || ((y a =? y b) && ((m a <? m b) || ((m a =? m b) && (d a <=? d b)))).

(** ** Text matching *)

Fixpoint to_lower (s : string) : string :=
  match s with
  | "" => ""
  | String c s' => String (tolower c) (to_lower s')
  end.

(** ** CSV helpers *)

(** The characters [find_first_of] looks for in [csv_escape]: comma, quote
    and newline. *)
Definition is_special (c : ascii) : bool :=
  Ascii.eqb c ch_comma || Ascii.eqb c ch_quote || Ascii.eqb c ch_lf.

Fixpoint has_special (s : string) : bool :=
  match s with
  | "" => false
  | String c s' => is_special c || has_special s'
  end.

(** The loop of [csv_escape]: every quote is pushed twice. *)
Fixpoint escape_loop (s : string) (out : string) : string :=
  match s with
  | "" => out
  | String c s' =>
      let out1 := if Ascii.eqb c ch_quote then push_back out ch_quote else out in
      escape_loop s' (push_back out1 c)
  end.

Definition csv_escape (s : string) : string :=
  if negb (has_special s) then s
  else push_back (escape_loop s (push_back "" ch_quote)) ch_quote.

(** The loop of [csv_unescape] over the remaining characters [s[i..]]:
    a quote followed by a quote yields one quote and skips both. *)
Fixpoint unescape_loop (s : string) (out : string) : string :=
  match s with
  | "" => out
  | String c s' =>
      if Ascii.eqb c ch_quote then
        match s' with
        | String c2 s'' =>
            if Ascii.eqb c2 ch_quote then unescape_loop s'' (push_back out ch_quote)
            else unescape_loop s' (push_back out c)
        | "" => unescape_loop s' (push_back out c)
        end
      else unescape_loop s' (push_back out c)
  end.

Definition csv_unescape (s : string) : string :=
  if (2 <=? size s) && Ascii.eqb (at_ s 0) ch_quote && Ascii.eqb (back s) ch_quote
  then unescape_loop (substr s 1 (String.length s - 2)) ""
  else s.

(** The first loop of [csv_split_line]: [cols], [cur] and [in_q] are the
    loop's variables. *)
Fixpoint split_loop (line : string) (cols : list string) (cur : string)
    (in_q : bool) : list string :=
  match line with
  | "" => cols ++ [cur]
  | String c rest =>
      if Ascii.eqb c ch_quote then split_loop rest cols (push_back cur c) (negb in_q)
      else if Ascii.eqb c ch_comma && negb in_q then split_loop rest (cols ++ [cur]) "" in_q
      else split_loop rest cols (push_back cur c) in_q
  end.

(** [while (!s.empty() && (s.back()=='\r'||s.back()=='\n')) s.pop_back();]
    The loop runs at most [s.size()] times. *)
Fixpoint strip_loop (fuel : nat) (s : string) : string :=
  match fuel with
  | O => s
  | S f =>
      if negb (size s =? 0) && (Ascii.eqb (back s) ch_cr || Ascii.eqb (back s) ch_lf)
      then strip_loop f (pop_back s) else s
  end.

Definition strip_eol (s : string) : string := strip_loop (String.length s) s.

Definition csv_split_line (line : string) : list string :=
  map strip_eol (split_loop line [] "" false).

(** ** Expense and the record store *)

Record Expense := mkExpense {
  date : Date;
  amount : float;
  category : string;
  description : string
}.

(** The state of an [ExpenseManager] is its vector [expenses_]. *)
Definition add (e : Expense) (expenses : list Expense) : list Expense :=
  expenses ++ [e].

Definition all (expenses : list Expense) : list Expense := expenses.

Definition in_range (from to : Date) (e : Expense) : bool :=
  date_le from (date e) && date_le (date e) to.

Definition filter_by_date_range (from to : Date) (expenses : list Expense)
    : list Expense :=
  fold_left (fun out e => if in_range from to e then out ++ [e] else out)
            expenses [].

Definition total (l : list Expense) : float :=
  fold_left (fun s e => (s + amount e)%float) l 0%float.

(** [std::map<std::string,double>]: the entries in ascending key order, as
    iteration visits them.  [m[k] += a] creates a missing entry with the
    value [0.0] before it adds. *)
Fixpoint map_add (k : string) (a : float) (mp : list (string * float))
    : list (string * float) :=
  match mp with
  | [] => [(k, (0 + a)%float)]
  | (k', v) :: mp' =>
      match String.compare k k' with
      | Lt => (k, (0 + a)%float) :: mp
      | Eq => (k', (v + a)%float) :: mp'
      | Gt => (k', v) :: map_add k a mp'
      end
  end.

Fixpoint map_find (k : string) (mp : list (string * float)) : option float :=
  match mp with
  | [] => None
  | (k', v) :: mp' => if String.eqb k k' then Some v else map_find k mp'
  end.

Definition totals_by_category (l : list Expense) : list (string * float) :=
  fold_left (fun mp e => map_add (to_lower (category e)) (amount e) mp) l [].

(** ** Streams and files *)

(** The lines successive calls of [std::getline] return: characters up to
    the next newline, which is dropped; at the end of the input a call that
    extracts nothing fails. *)
Fixpoint getlines (s : string) (cur : string) : list string :=
  match s with
  | "" => if String.eqb cur "" then [] else [cur]
  | String c s' =>
      if Ascii.eqb c ch_lf then cur :: getlines s' ""
      else getlines s' (push_back cur c)
  end.

(** A file system: the contents of the files that can be opened for
    reading, and which paths can be opened for writing. *)
Record FileSystem := mkFS {
  files : gmap string string;
  writable : string -> bool
}.

Definition write_file (fs : FileSystem) (path text : string) : FileSystem :=
  mkFS (<[path := text]> (files fs)) (writable fs).

Definition header : string := "date,amount,category,description".

Definition endl : string := String ch_lf "".

(** ** Persistence and interactive entry

    [std::stod] and [operator<<] for a [double] belong to the C++ standard
    library, not to this program: the development takes them as parameters.
    [stod s] is [None] where [std::stod] throws. *)

Section Persistence.

Variable stod : string -> option float.
Variable put_double : float -> string.

Definition parse_csv_line (line : string) (expenses : list Expense)
    : list Expense :=
  let cols := csv_split_line line in
  if Z.of_nat (length cols) <? 4 then expenses
  else
    match parse_date (nth 0 cols "") with
    | None => expenses
    | Some dt =>
        match stod (nth 1 cols "") with
        | None => expenses
        | Some amt =>
            expenses ++ [mkExpense dt amt (csv_unescape (nth 2 cols ""))
                                          (csv_unescape (nth 3 cols ""))]
        end
    end.

(** What one iteration of the loop in [save_csv] writes. *)
Definition csv_row (e : Expense) : string :=
  to_string (date e) +:+ "," +:+ put_double (amount e) +:+ ","
  +:+ csv_escape (category e) +:+ "," +:+ csv_escape (description e) +:+ endl.

Definition save_csv (fs : FileSystem) (path : string) (expenses : list Expense)
    : bool * FileSystem :=
  if negb (writable fs path) then (false, fs)
  else
    (true,
     write_file fs path
       (fold_left (fun out e => out +:+ csv_row e) expenses (header +:+ endl))).

(** [load_csv] returns its result and the new value of [expenses_]. *)
Definition load_csv (fs : FileSystem) (path : string) (expenses : list Expense)
    : bool * list Expense :=
  match files fs !! path with
  | None => (false, expenses)
  | Some text =>
      let expenses0 : list Expense := [] in
      match getlines text "" with
      | [] => (true, expenses0)
      | line :: rest =>
          let expenses1 :=
            if negb (String.prefix header line)
            then parse_csv_line line expenses0 else expenses0 in
          (true, fold_left (fun ex l => parse_csv_line l ex) rest expenses1)
      end
  end.

(** [prompt_expense] reads lines from [std::cin], here the list [input].
    Its two loops end only at an acceptable line: on an exhausted input
    they never return, which is [None]. *)
Fixpoint read_date (input : list string) : option (Date * list string) :=
  match input with
  | [] => None
  | ds :: rest =>
      match parse_date ds with
      | Some dt => Some (dt, rest)
      | None => read_date rest
      end
  end.

Fixpoint read_amount (input : list string) : option (float * list string) :=
  match input with
  | [] => None
  | s :: rest =>
      match stod s with
      | Some a => if (0 <=? a)%float then Some (a, rest) else read_amount rest
      | None => read_amount rest
      end
  end.

(** [std::getline] at the end of the input leaves the string empty. *)
Definition read_line (input : list string) : string * list string :=
  match input with
  | [] => ("", [])
  | s :: rest => (s, rest)
  end.

Definition prompt_expense (input : list string) : option (Expense * list string) :=
  match read_date input with
  | None => None
  | Some (dt, in1) =>
      match read_amount in1 with
      | None => None
      | Some (a, in2) =>
          let '(cat, in3) := read_line in2 in
          let cat := if size cat =? 0 then "Uncategorized" else cat in
          let '(desc, in4) := read_line in3 in
          Some (mkExpense dt a cat desc, in4)
      end
  end.

End Persistence.

(** ** The standard library's conversions between [double] and text

    A model of what [operator<<] prints for a [double] under the stream's
    default flags (the [%g] conversion with precision 6) and of what
    [std::stod] reads from a decimal literal.  Both work on the exact value
    of the number, a ratio of two integers.  The general theorems do not
    depend on them; the examples are evaluated with them. *)

Module StdText.

(** [n / dn] rounded to the nearest integer, ties to even. *)
Definition round_half_even (n dn : Z) : Z :=
  let q := n / dn in
  let r := n mod dn in
  match 2 * r ?= dn with
  | Lt => q
  | Gt => q + 1
  | Eq => if Z.even q then q else q + 1
  end.

(** [10^x <= n / dn] *)
Definition pow10_le (x n dn : Z) : bool :=
  if 0 <=? x then dn * 10 ^ x <=? n else dn <=? n * 10 ^ (- x).

(** The decimal exponent of [n / dn]: the largest [x <= hi] with
    [10^x <= n / dn]. *)
Fixpoint log10_from (fuel : nat) (hi n dn : Z) : Z :=
  match fuel with
  | O => hi
  | S f => if pow10_le hi n dn then hi else log10_from f (hi - 1) n dn
  end.

(** [n / dn] divided by [10^x], rounded. *)
Definition scaled (x n dn : Z) : Z :=
  if 0 <=? x then round_half_even n (dn * 10 ^ x)
  else round_half_even (n * 10 ^ (- x)) dn.

Fixpoint strip_zeros_loop (fuel : nat) (s : string) : string :=
  match fuel with
  | O => s
  | S f => if Ascii.eqb (back s) ch_zero then strip_zeros_loop f (pop_back s) else s
  end.

Definition strip_zeros (s : string) : string := strip_zeros_loop (String.length s) s.

Definition with_point (ip fp : string) : string :=
  let fp' := strip_zeros fp in
  if String.eqb fp' "" then ip else ip +:+ "." +:+ fp'.

(** The [%g] text of the positive number [n / dn], six significant digits. *)
Definition put_positive (n dn : Z) : string :=
  let x0 := log10_from 700 330 n dn in
  let q0 := scaled (x0 - 5) n dn in
  let '(x, q) := if q0 =? 1000000 then (x0 + 1, 100000) else (x0, q0) in
  let ds := show_digits 10 q "" in
  if (x <? -4) || (6 <=? x) then
    with_point (substr ds 0 1) (substr ds 1 5)
    +:+ "e" +:+ (if x <? 0 then "-" else "+")
    +:+ setw_fill 2 ch_zero (show_digits 10 (Z.abs x) "")
  else if 0 <=? x then
    with_point (substr ds 0 (Z.to_nat (x + 1))) (substr ds (Z.to_nat (x + 1)) (Z.to_nat (5 - x)))
  else
    with_point "0" (fill (Z.to_nat (- x - 1)) ch_zero +:+ ds).

Definition put_double (a : float) : string :=
  match Prim2SF a with
  | S754_nan => "nan"
  | S754_infinity s => if s then "-inf" else "inf"
  | S754_zero s => if s then "-0" else "0"
  | S754_finite s mz e =>
      (if s then "-" else "") +:+
      (if 0 <=? e then put_positive (Zpos mz * 2 ^ e) 1
       else put_positive (Zpos mz) (2 ^ (- e)))
  end.

(** The digits at the front of [s]: their value, their number, the rest. *)
Fixpoint take_digits (s : string) (acc : Z) (cnt : Z) : Z * Z * string :=
  match s with
  | String c s' =>
      if isdigit c then take_digits s' (acc * 10 + digit_val c) (cnt + 1)
      else (acc, cnt, s)
  | "" => (acc, cnt, s)
  end.

Definition take_sign (s : string) : bool * string :=
  match s with
  | String c r => if Ascii.eqb c ch_dash then (true, r)
                  else if Ascii.eqb c ch_plus then (false, r)
                  else (false, s)
  | "" => (false, s)
  end.

(** An exponent part [e], sign, digits; 0 when there is none. *)
Definition take_exponent (s : string) : Z :=
  match s with
  | String c r =>
      if Ascii.eqb c "e"%char || Ascii.eqb c "E"%char then
        let '(neg, r1) := take_sign r in
        let '(v, cnt, _) := take_digits r1 0 0 in
        if cnt =? 0 then 0 else if neg then - v else v
      else 0
  | "" => 0
  end.

(** [mz * 10^e10] rounded to binary64, ties to even. *)
Definition round_decimal (mz e10 : Z) : spec_float :=
  if 0 <=? e10 then binary_normalize prec emax (mz * 10 ^ e10) 0 false
  else
    let dn := 10 ^ (- e10) in
    let sh := Z.max 0 (66 + Z.log2 dn - Z.log2 mz) in
    let q := (mz * 2 ^ sh) / dn in
    let sticky := if (mz * 2 ^ sh) mod dn =? 0 then 0 else 1 in
    binary_normalize prec emax (2 * q + sticky) (- sh - 1) false.

(** [std::stod] on a decimal literal: white space, sign, digits with an
    optional point, optional exponent; the text after the number is ignored.
    [None] is [std::invalid_argument] (no digits) or [std::out_of_range]
    (overflow).  Hexadecimal literals and the words [inf] and [nan], which
    [strtod] also accepts, are not covered, and a result below the normal
    range is returned as rounded, where [std::stod] throws
    [std::out_of_range]. *)
Definition stod (s : string) : option float :=
  let '(neg, s1) := take_sign (skip_space s) in
  let '(ip, icnt, s2) := take_digits s1 0 0 in
  let '(mz, fcnt, s3) :=
    match s2 with
    | String c r => if Ascii.eqb c "."%char then take_digits r ip 0 else (ip, 0, s2)
    | "" => (ip, 0, s2)
    end in
  if icnt + fcnt =? 0 then None
  else
    let e10 := take_exponent s3 - fcnt in
    if mz =? 0 then Some (if neg then neg_zero else PrimFloat.zero)
    else
      match round_decimal mz e10 with
      | S754_finite _ mb eb =>
          Some (SF2Prim (S754_finite neg mb eb))
      | _ => None
      end.

End StdText.

(** ** The specification's side: the notions the properties are stated with *)

(** The pattern YYYY-MM-DD: ten characters, hyphens at positions 4 and 7,
    decimal digits everywhere else. *)
Definition matches_pattern (s : string) : bool :=
  (size s =? 10)
  && isdigit (at_ s 0) && isdigit (at_ s 1) && isdigit (at_ s 2) && isdigit (at_ s 3)
  && Ascii.eqb (at_ s 4) ch_dash
  && isdigit (at_ s 5) && isdigit (at_ s 6)
  && Ascii.eqb (at_ s 7) ch_dash
  && isdigit (at_ s 8) && isdigit (at_ s 9).

(** The numbers two and four digit characters spell, from position [pos]. *)
Definition two_digits (s : string) (pos : nat) : Z :=
  digit_val (at_ s pos) * 10 + digit_val (at_ s (pos + 1)).

Definition four_digits (s : string) (pos : nat) : Z :=
  digit_val (at_ s pos) * 1000 + digit_val (at_ s (pos + 1)) * 100
  + digit_val (at_ s (pos + 2)) * 10 + digit_val (at_ s (pos + 3)).

(** The zero-padded decimal forms of fixed width. *)
Definition dec2 (n : Z) : string :=
  String (digit_char (n / 10)) (String (digit_char (n mod 10)) "").

Definition dec4 (n : Z) : string :=
  String (digit_char (n / 1000))
    (String (digit_char (n / 100 mod 10))
       (String (digit_char (n / 10 mod 10)) (String (digit_char (n mod 10)) ""))).

(** The calendar, as the specification words it: a year is a leap year
    when it is divisible by 4 and not by 100, or divisible by 400. *)
Definition leap_year (yr : Z) : bool :=
  ((yr mod 4 =? 0) && negb (yr mod 100 =? 0)) || (yr mod 400 =? 0).

Definition month_length (yr mo : Z) : Z :=
  if mo =? 2 then (if leap_year yr then 29 else 28)
  else if (mo =? 4) || (mo =? 6) || (mo =? 9) || (mo =? 11) then 30 else 31.

Definition calendar_valid (yr mo dy : Z) : Prop :=
  1900 <= yr /\ 1 <= mo <= 12 /\ 1 <= dy <= month_length yr mo.

(** The year-then-month-then-day order. *)
Definition date_compare (a b : Date) : comparison :=
  match y a ?= y b with
  | Eq => match m a ?= m b with
          | Eq => d a ?= d b
          | c => c
          end
  | c => c
  end.

Definition date_leq (a b : Date) : Prop := date_compare a b <> Gt.

Definition date_leqb (a b : Date) : bool :=
  match date_compare a b with Gt => false | _ => true end.

(** Every quote character doubled. *)
Fixpoint double_quotes (s : string) : string :=
  match s with
  | "" => ""
  | String c s' =>
      if Ascii.eqb c ch_quote then String ch_quote (String ch_quote (double_quotes s'))
      else String c (double_quotes s')
  end.

(** Every doubled quote character replaced by a single one. *)
Fixpoint undouble (s : string) : string :=
  match s with
  | "" => ""
  | String c s' =>
      match s' with
      | String c2 s'' =>
          if Ascii.eqb c ch_quote && Ascii.eqb c2 ch_quote
          then String ch_quote (undouble s'')
          else String c (undouble s')
      | "" => String c ""
      end
  end.

Definition wrap_quotes (s : string) : string :=
  String ch_quote (s +:+ String ch_quote "").

Definition quote_wrapped (s : string) : bool :=
  (2 <=? size s) && Ascii.eqb (at_ s 0) ch_quote && Ascii.eqb (back s) ch_quote.

(** The text between the first and the last character. *)
Definition inner (s : string) : string := pop_back (substr s 1 (String.length s - 1)).

(** Ascending keys. *)
Definition key_lt (p q : string * float) : Prop :=
  String.compare (fst p) (fst q) = Lt.

(** The amounts of the records whose category lowercases to [k], added in
    the order of the records. *)
Definition has_key (k : string) (e : Expense) : bool :=
  String.eqb (to_lower (category e)) k.

Definition sum_for (k : string) (l : list Expense) : float :=
  fold_left (fun s e => (s + amount e)%float) (List.filter (has_key k) l) 0%float.

(** The value [m[k]] reads before [+=]: a missing entry counts as 0.0. *)
Definition find_or_zero (k : string) (mp : list (string * float)) : float :=
  match map_find k mp with Some v => v | None => 0%float end.

(** What the result holds for the key [k]. *)
Definition totals_spec (k : string) (l : list Expense) : option float :=
  if existsb (has_key k) l then Some (sum_for k l) else None.

Definition nonneg (e : Expense) : Prop := (0 <=? amount e)%float = true.

Definition store_inv (expenses : list Expense) : Prop := Forall nonneg expenses.

Fixpoint contains (c : ascii) (s : string) : bool :=
  match s with
  | "" => false
  | String c' s' => Ascii.eqb c' c || contains c s'
  end.

Definition ends_with_eol (s : string) : bool :=
  negb (size s =? 0) && (Ascii.eqb (back s) ch_cr || Ascii.eqb (back s) ch_lf).

(** Free text that survives a line-oriented reader: no newline inside, and
    no carriage return at the end unless the field gets quoted. *)
Definition field_ok (s : string) : bool :=
  negb (contains ch_lf s) && (has_special s || negb (ends_with_eol s)).

(** A number's text as the "C" locale prints it: none of the characters
    the line format gives a meaning to. *)
Definition plain_text (s : string) : bool :=
  negb (contains ch_comma s) && negb (contains ch_quote s)
  && negb (contains ch_lf s) && negb (contains ch_cr s).

Section SpecPersistence.

Variable stod : string -> option float.
Variable put_double : float -> string.

(** decodeExpense on the fields of a line: at least four fields, a date,
    a number, and two decoded text fields. *)
Definition decode_line (line : string) : option Expense :=
  let cols := csv_split_line line in
  if (4 <=? length cols)%nat then
    dt ← parse_date (nth 0 cols "");
    amt ← stod (nth 1 cols "");
    Some (mkExpense dt amt (csv_unescape (nth 2 cols "")) (csv_unescape (nth 3 cols "")))
  else None.

(** The rule for the first line: it is skipped when it is the header text
    and decoded like every other line otherwise. *)
Definition load_lines_spec (lines : list string) : list Expense :=
  match lines with
  | [] => []
  | first :: rest =>
      (if String.eqb first header then [] else option_list (decode_line first))
      ++ omap decode_line rest
  end.

(** A record's line without its newline, and the lines of a store. *)
Definition row_line (e : Expense) : string :=
  to_string (date e) +:+ "," +:+ put_double (amount e) +:+ ","
  +:+ csv_escape (category e) +:+ "," +:+ csv_escape (description e).

Definition rows (expenses : list Expense) : string :=
  fold_right (fun e acc => row_line e +:+ endl +:+ acc) "" expenses.

Definition record_ok (e : Expense) : Prop :=
  valid_date (date e) = true /\ y (date e) <= 9999
  /\ plain_text (put_double (amount e)) = true
  /\ is_Some (stod (put_double (amount e)))
  /\ field_ok (category e) = true
  /\ field_ok (description e) = true.

(** The record read back: everything as it was, the amount as the number
    its text stands for. *)
Definition same_record (e e' : Expense) : Prop :=
  date e' = date e
  /\ stod (put_double (amount e)) = Some (amount e')
  /\ category e' = category e
  /\ description e' = description e.

End SpecPersistence.

(** ** Example data *)

Definition fs_empty : FileSystem := mkFS ∅ (fun p => negb (size p =? 0)).

Definition ex_food : Expense := mkExpense (mkDate 2024 1 15) 42.5 "Food" "Groceries".
Definition ex_rent : Expense :=
  mkExpense (mkDate 2024 2 1) 1200 "Rent, Utilities" ("say " +:+ String ch_quote ("hi" +:+ String ch_quote "")).
Definition ex_big : Expense := mkExpense (mkDate 2024 2 29) 1234567 "Travel" "".

Definition ex_newline : Expense :=
  mkExpense (mkDate 2024 1 1) 5 "Food" ("a" +:+ String ch_lf "b").
Definition ex_cr : Expense :=
  mkExpense (mkDate 2024 1 1) 5 "Food" ("abc" +:+ String ch_cr "").
Definition ex_year : Expense := mkExpense (mkDate 10000 1 1) 5 "Food" "x".

(** A file without a header line: one good record, one line with a bad
    date, one with a text for the amount, one with two fields only. *)
Definition ex_text : string :=
  "2024-01-15,42.5,Food,Groceries" +:+ endl
  +:+ "2024-13-01,3,Food,no such month" +:+ endl
  +:+ "2024-01-02,abc,Food,no number" +:+ endl
  +:+ "2024-01-03,7" +:+ endl.

Definition ex_negative_text : string := "2024-01-01,-5,Food,x" +:+ endl.

Definition ex_negative : Expense := mkExpense (mkDate 2024 1 1) (-5) "Food" "x".

Definition save_then_load (st : list Expense) : bool * list Expense :=
  load_csv StdText.stod
    (snd (save_csv StdText.put_double fs_empty "expenses.csv" st)) "expenses.csv" [].

Definition fs_with (text : string) : FileSystem :=
  write_file fs_empty "expenses.csv" text.

(** ** The remaining operations of the program *)

Definition iequals (a b : string) : bool :=
  String.eqb (to_lower a) (to_lower b).

(** [h.find(n)] from position [pos]: the first position at which [n]
    occurs in [h], or [None] for [npos].  The empty text occurs at once,
    also in the empty text. *)
Fixpoint find (h n : string) (pos : nat) : option nat :=
  if String.prefix n h then Some pos
  else
    match h with
    | "" => None
    | String _ h' => find h' n (S pos)
    end.

Definition icontains (hay needle : string) : bool :=
  let H := to_lower hay in
  let N := to_lower needle in
  match find H N 0 with Some _ => true | None => false end.

Definition filter_by_category (cat : string) (expenses : list Expense)
    : list Expense :=
  fold_left (fun out e => if iequals (category e) cat then out ++ [e] else out)
            expenses [].

Definition search (q : string) (expenses : list Expense) : list Expense :=
  fold_left
    (fun out e =>
       if icontains (category e) q || icontains (description e) q
       then out ++ [e] else out)
    expenses [].

(** [prompt_date] runs the loop [prompt_expense] starts with. *)
Definition prompt_date (input : list string) : option (Date * list string) :=
  read_date input.

(** [prompt_line] reads one line. *)
Definition prompt_line (input : list string) : string * list string :=
  read_line input.

(** The menu loop of [main], as far as the store, the files and the input
    go; what it prints is left out.  [store] is the vector of [mgr].  An
    iteration reads the choice and then what the choice asks for.  On an
    exhausted input the choice stays empty, which is an invalid choice, for
    ever: the loop does not return, which is [None].  Every iteration
    takes at least one line, so [fuel] above the length of the input is
    never used up. *)
Record Session := mkSession { store : list Expense; disk : FileSystem }.

Section Main.

Variable stod : string -> option float.
Variable put_double : float -> string.

Fixpoint main_loop (fuel : nat) (input : list string) (s : Session)
    : option Session :=
  match fuel with
  | O => None
  | S f =>
      match input with
      | [] => None
      | ch :: rest =>
          if String.eqb ch "1" then
            match prompt_expense stod rest with
            | None => None
            | Some (e, rest1) => main_loop f rest1 (mkSession (add e (store s)) (disk s))
            end
          else if String.eqb ch "2" then main_loop f rest s
          else if String.eqb ch "3" then
            match prompt_date rest with
            | None => None
            | Some (from, rest1) =>
                match prompt_date rest1 with
                | None => None
                | Some (to, rest2) => main_loop f rest2 s
                end
            end
          else if String.eqb ch "4" then main_loop f (snd (prompt_line rest)) s
          else if String.eqb ch "5" then main_loop f (snd (prompt_line rest)) s
          else if String.eqb ch "6" then main_loop f rest s
          else if String.eqb ch "7" then
            let '(path, rest1) := prompt_line rest in
            main_loop f rest1
              (mkSession (store s) (snd (save_csv put_double (disk s) path (store s))))
          else if String.eqb ch "8" then
            let '(path, rest1) := prompt_line rest in
            main_loop f rest1
              (mkSession (snd (load_csv stod (disk s) path (store s))) (disk s))
          else if String.eqb ch "9" || String.eqb ch "q" || String.eqb ch "Q" then Some s
          else main_loop f rest s
      end
  end.

(** [main] starts with an empty store. *)
Definition main (input : list string) (fs : FileSystem) : option Session :=
  main_loop (S (length input)) input (mkSession [] fs).

End Main.

(** ** Notions for the properties of the remaining operations *)

Definition date_ok (e : Expense) : Prop :=
  valid_date (date e) = true /\ y (date e) <= 9999.

Fixpoint count_char (c : ascii) (s : string) : nat :=
  match s with
  | "" => O
  | String c' s' => ((if Ascii.eqb c' c then 1 else 0) + count_char c s')%nat
  end.

(** Whether the text ends inside a quoted region when it starts in state [q]. *)
Fixpoint in_q_after (s : string) (q : bool) : bool :=
  match s with
  | "" => q
  | String c s' => in_q_after s' (if Ascii.eqb c ch_quote then negb q else q)
  end.

(** Lines joined into a text, each followed by the line end [eol]. *)
Definition unlines (eol : string) (ls : list string) : string :=
  fold_right (fun l acc => l +:+ eol +:+ acc) "" ls.

Definition crlf : string := String ch_cr (String ch_lf "").

(** A text field that [csv_split_line] hands back whole: it is quoted, or
    it does not end in a carriage return or newline. *)
Definition strip_safe (s : string) : bool :=
  has_special s || negb (ends_with_eol s).

(** The amounts [prompt_expense] asks again for. *)
Definition amount_rejected (stod : string -> option float) (s : string) : Prop :=
  match stod s with
  | Some a => (0 <=? a)%float = false
  | None => True
  end.

Definition ex_crlf_lines : list string :=
  ["date,amount,category,description"; "2024-01-15,42.5,Food,Groceries"; "2024-13-01,3,Food,x"].

(** A session: one record entered, the summary shown, the store saved and
    loaded back, and the end. *)
Definition ex_session : list string :=
  ["1"; "not a date"; "2024-01-15"; "-3"; "42.5"; "Food"; "Groceries";
   "6"; "7"; "expenses.csv"; "8"; "expenses.csv"; "x"; "9"; "1"].

(** ** Lowercase, the loader's calls and the iterations of the menu loop *)

(** The lowercase form of a character, letter by letter: the twenty-six
    capital letters have one, every other character is its own. *)
Definition lower_letter (c : ascii) : ascii :=
  match c with
  | "A" => "a" | "B" => "b" | "C" => "c" | "D" => "d" | "E" => "e"
  | "F" => "f" | "G" => "g" | "H" => "h" | "I" => "i" | "J" => "j"
  | "K" => "k" | "L" => "l" | "M" => "m" | "N" => "n" | "O" => "o"
  | "P" => "p" | "Q" => "q" | "R" => "r" | "S" => "s" | "T" => "t"
  | "U" => "u" | "V" => "v" | "W" => "w" | "X" => "x" | "Y" => "y"
  | "Z" => "z"
  | _ => c
  end%char.

Fixpoint lowercase (s : string) : string :=
  match s with
  | "" => ""
  | String c s' => String (lower_letter c) (lowercase s')
  end.

(** The records filed under the label [k], and the sum of their amounts in
    the order of the records. *)
Definition has_label (k : string) (e : Expense) : bool :=
  String.eqb (lowercase (category e)) k.

Definition sum_label (k : string) (l : list Expense) : float :=
  fold_left (fun s e => (s + amount e)%float) (List.filter (has_label k) l) 0%float.

Definition ex_mixed_case : list Expense :=
  [mkExpense (mkDate 2024 1 1) 10 "Food" ""; mkExpense (mkDate 2024 1 2) 5.5 "food" "";
   mkExpense (mkDate 2024 1 3) 20 "Rent" ""; mkExpense (mkDate 2024 1 4) 0.25 "FOOD" ""].

Section Traced.

Variable stod : string -> option float.
Variable put_double : float -> string.

(** [load_csv] with its calls of [parse_csv_line] written down: the third
    component lists, in order, the lines handed to [parse_csv_line]. *)
Definition load_csv_traced (fs : FileSystem) (path : string) (expenses : list Expense)
    : bool * list Expense * list string :=
  match files fs !! path with
  | None => (false, expenses, [])
  | Some text =>
      match getlines text "" with
      | [] => (true, [], [])
      | line :: rest =>
          let st1 : list Expense * list string :=
            if negb (String.prefix header line)
            then (parse_csv_line stod line [], [line]) else ([], []) in
          let st :=
            fold_left (fun st l => (parse_csv_line stod l (fst st), snd st ++ [l]))
                      rest st1 in
          (true, fst st, snd st)
      end
  end.

(** One iteration of the loop of [main]: it ends the loop at the quit
    choice, goes on with what is left of the input and the new session, or
    never comes back from a prompt whose input has run out.  On an
    exhausted input the choice is read as empty, an invalid choice. *)
Inductive Outcome :=
| Quit
| Continue (rest : list string) (s : Session)
| Never.

Definition menu_step (input : list string) (s : Session) : Outcome :=
  match input with
  | [] => Continue [] s
  | ch :: rest =>
      if String.eqb ch "1" then
        match prompt_expense stod rest with
        | None => Never
        | Some (e, rest1) => Continue rest1 (mkSession (add e (store s)) (disk s))
        end
      else if String.eqb ch "2" then Continue rest s
      else if String.eqb ch "3" then
        match prompt_date rest with
        | None => Never
        | Some (from, rest1) =>
            match prompt_date rest1 with
            | None => Never
            | Some (to, rest2) => Continue rest2 s
            end
        end
      else if String.eqb ch "4" then Continue (snd (prompt_line rest)) s
      else if String.eqb ch "5" then Continue (snd (prompt_line rest)) s
      else if String.eqb ch "6" then Continue rest s
      else if String.eqb ch "7" then
        let '(path, rest1) := prompt_line rest in
        Continue rest1
          (mkSession (store s) (snd (save_csv put_double (disk s) path (store s))))
      else if String.eqb ch "8" then
        let '(path, rest1) := prompt_line rest in
        Continue rest1
          (mkSession (snd (load_csv stod (disk s) path (store s))) (disk s))
      else if String.eqb ch "9" || String.eqb ch "q" || String.eqb ch "Q" then Quit
      else Continue rest s
  end.

(** [n] iterations that all go on: the input and the session they reach. *)
Fixpoint steps (n : nat) (input : list string) (s : Session)
    : option (list string * Session) :=
  match n with
  | O => Some (input, s)
  | S k =>
      match menu_step input s with
      | Continue rest s' => steps k rest s'
      | _ => None
      end
  end.

End Traced.

(** The line read as the menu choice is a quit choice. *)
Definition quit_choice (ch : string) : Prop := ch = "9" \/ ch = "q" \/ ch = "Q".

(** A file whose first line starts with the header text and goes on. *)
Definition ex_header_notes_text : string :=
  "date,amount,category,description,notes" +:+ endl
  +:+ "2024-01-15,42.5,Food,Groceries" +:+ endl.

Definition ex_header_text : string :=
  "date,amount,category,description" +:+ endl
  +:+ "2024-01-15,42.5,Food,Groceries" +:+ endl.

(** * Properties *)

(** ** Strings *)

Lemma sapp_nil_l (s : string) : "" +:+ s = s.
Proof. reflexivity. Qed.

Lemma sapp_cons (c : ascii) (s t : string) : String c s +:+ t = String c (s +:+ t).
Proof. reflexivity. Qed.

Lemma sapp_nil_r (s : string) : s +:+ "" = s.
Proof. induction s as [|c s IH]; [reflexivity|]. rewrite sapp_cons, IH. reflexivity. Qed.

Lemma sapp_assoc (s t u : string) : (s +:+ t) +:+ u = s +:+ (t +:+ u).
Proof.
  induction s as [|c s IH]; [reflexivity|].
  rewrite !sapp_cons, IH. reflexivity.
Qed.

Lemma slength_app (s t : string) :
  String.length (s +:+ t) = (String.length s + String.length t)%nat.
Proof.
  induction s as [|c s IH]; [reflexivity|].
  rewrite sapp_cons. simpl. rewrite IH. reflexivity.
Qed.

Lemma substring_0_app (s t : string) :
  String.substring 0 (String.length s) (s +:+ t) = s.
Proof.
  induction s as [|c s IH].
  - simpl. destruct t; reflexivity.
  - rewrite sapp_cons. simpl. rewrite IH. reflexivity.
Qed.

Lemma back_push_back (s : string) (c : ascii) : back (push_back s c) = c.
Proof.
  unfold push_back. induction s as [|c' s IH]; [reflexivity|].
  rewrite sapp_cons. simpl.
  destruct (s +:+ String c "") eqn:E; [destruct s; discriminate|exact IH].
Qed.

Lemma eqb_ascii_true (a b : ascii) : Ascii.eqb a b = true -> a = b.
Proof. apply Ascii.eqb_eq. Qed.

Ltac str_norm := rewrite ?sapp_assoc, ?sapp_cons, ?sapp_nil_l, ?sapp_nil_r.

(** ** The field codec *)

Lemma escape_loop_spec (s out : string) :
  escape_loop s out = out +:+ double_quotes s.
Proof.
  revert out. induction s as [|c s IH]; intros out; simpl.
  - symmetry. apply sapp_nil_r.
  - rewrite IH. unfold push_back.
    destruct (Ascii.eqb c ch_quote) eqn:E.
    + apply eqb_ascii_true in E. subst c. str_norm. reflexivity.
    + str_norm. reflexivity.
Qed.

Lemma undouble_cons2 (c c2 : ascii) (s : string) :
  undouble (String c (String c2 s)) =
  if Ascii.eqb c ch_quote && Ascii.eqb c2 ch_quote
  then String ch_quote (undouble s) else String c (undouble (String c2 s)).
Proof. reflexivity. Qed.

Lemma unescape_loop_cons2 (c c2 : ascii) (s out : string) :
  unescape_loop (String c (String c2 s)) out =
  if Ascii.eqb c ch_quote && Ascii.eqb c2 ch_quote
  then unescape_loop s (push_back out ch_quote)
  else unescape_loop (String c2 s) (push_back out c).
Proof.
  change (unescape_loop (String c (String c2 s)) out)
    with (if Ascii.eqb c ch_quote
          then if Ascii.eqb c2 ch_quote then unescape_loop s (push_back out ch_quote)
               else unescape_loop (String c2 s) (push_back out c)
          else unescape_loop (String c2 s) (push_back out c)).
  destruct (Ascii.eqb c ch_quote), (Ascii.eqb c2 ch_quote); reflexivity.
Qed.

Lemma unescape_loop_spec (s out : string) :
  unescape_loop s out = out +:+ undouble s.
Proof.
  revert out.
  assert (H : forall n s, (String.length s <= n)%nat ->
            forall out, unescape_loop s out = out +:+ undouble s).
  { induction n as [|n IH]; intros s' Hn out.
    - destruct s'; simpl in Hn; [|lia]. simpl. symmetry. apply sapp_nil_r.
    - destruct s' as [|c [|c2 s'']].
      + simpl; symmetry; apply sapp_nil_r.
      + simpl. destruct (Ascii.eqb c ch_quote); reflexivity.
      + rewrite unescape_loop_cons2, undouble_cons2. simpl in Hn.
        destruct (Ascii.eqb c ch_quote && Ascii.eqb c2 ch_quote).
        * rewrite IH by lia. unfold push_back. str_norm. reflexivity.
        * rewrite IH by (simpl; lia).
          unfold push_back. str_norm. reflexivity. }
  intros out. apply (H (String.length s)). lia.
Qed.

Lemma undouble_cons_other (c : ascii) (s : string) :
  Ascii.eqb c ch_quote = false -> undouble (String c s) = String c (undouble s).
Proof.
  intros E. destruct s as [|c2 r]; [reflexivity|].
  rewrite undouble_cons2, E. reflexivity.
Qed.

Lemma undouble_double (s : string) : undouble (double_quotes s) = s.
Proof.
  induction s as [|c s IH]; [reflexivity|].
  simpl. destruct (Ascii.eqb c ch_quote) eqn:E.
  - apply eqb_ascii_true in E. subst c.
    rewrite undouble_cons2. simpl. rewrite IH. reflexivity.
  - rewrite undouble_cons_other by exact E. rewrite IH. reflexivity.
Qed.

Lemma csv_escape_spec (s : string) :
  csv_escape s = if has_special s then wrap_quotes (double_quotes s) else s.
Proof.
  unfold csv_escape, wrap_quotes. destruct (has_special s); simpl; [|reflexivity].
  rewrite escape_loop_spec. unfold push_back. str_norm. reflexivity.
Qed.

Lemma size_wrap (s : string) : size (wrap_quotes s) = size s + 2.
Proof. unfold size, wrap_quotes. simpl. rewrite slength_app. simpl. lia. Qed.

Lemma back_wrap (s : string) : back (wrap_quotes s) = ch_quote.
Proof.
  unfold wrap_quotes.
  change (String ch_quote (s +:+ String ch_quote ""))
    with (push_back (String ch_quote s) ch_quote).
  apply back_push_back.
Qed.

Lemma csv_unescape_wrap (s : string) :
  csv_unescape (wrap_quotes s) = undouble s.
Proof.
  unfold csv_unescape. rewrite size_wrap, back_wrap.
  assert (H2 : (2 <=? size s + 2) = true) by (apply Z.leb_le; unfold size; lia).
  rewrite H2. simpl.
  rewrite unescape_loop_spec. rewrite sapp_nil_l. f_equal.
  unfold substr, wrap_quotes. simpl. rewrite slength_app. simpl.
  replace (String.length s + 1 - 1)%nat with (String.length s) by lia.
  apply substring_0_app.
Qed.

Lemma no_special_not_wrapped (s : string) :
  has_special s = false -> quote_wrapped s = false.
Proof.
  intros H. unfold quote_wrapped. destruct s as [|c s]; [reflexivity|].
  simpl in H. apply orb_false_iff in H as [H _].
  unfold is_special in H. apply orb_false_iff in H as [H _].
  apply orb_false_iff in H as [_ H].
  unfold at_. simpl. rewrite H. rewrite andb_false_r. reflexivity.
Qed.

Lemma substring_full (s : string) : String.substring 0 (String.length s) s = s.
Proof. induction s as [|c s IH]; [reflexivity|]. simpl. rewrite IH. reflexivity. Qed.

Lemma substring_pop_back (s : string) :
  String.substring 0 (String.length s - 1) s = pop_back s.
Proof.
  induction s as [|c s IH]; [reflexivity|].
  destruct s as [|c2 s]; [reflexivity|].
  replace (String.length (String c (String c2 s)) - 1)%nat
    with (S (String.length (String c2 s) - 1)) by (simpl; lia).
  change (pop_back (String c (String c2 s))) with (String c (pop_back (String c2 s))).
  rewrite <- IH. reflexivity.
Qed.

Lemma csv_unescape_spec (s : string) :
  csv_unescape s = if quote_wrapped s then undouble (inner s) else s.
Proof.
  unfold csv_unescape. fold (quote_wrapped s).
  destruct (quote_wrapped s) eqn:W; [|reflexivity].
  rewrite unescape_loop_spec, sapp_nil_l. f_equal.
  unfold inner, substr. destruct s as [|c s]; [discriminate|].
  simpl.
  replace (String.length s - 0)%nat with (String.length s) by lia.
  rewrite substring_full. apply substring_pop_back.
Qed.

Lemma csv_unescape_escape (s : string) : csv_unescape (csv_escape s) = s.
Proof.
  rewrite csv_escape_spec. destruct (has_special s) eqn:H.
  - rewrite csv_unescape_wrap. apply undouble_double.
  - rewrite csv_unescape_spec, (no_special_not_wrapped s H). reflexivity.
Qed.

(** C7. Field round trip: [csv_escape] wraps the text in quotes and doubles
    its quotes exactly when it contains a comma, a quote or a newline;
    [csv_unescape] strips one outer pair of quotes and undoubles exactly
    when its input is quote-wrapped; and decoding an encoded text gives the
    text back, for every text. *)
Theorem csv_field_roundtrip (s : string) :
  csv_unescape (csv_escape s) = s
  /\ csv_escape s = (if has_special s then wrap_quotes (double_quotes s) else s)
  /\ csv_unescape s = (if quote_wrapped s then undouble (inner s) else s).
Proof.
  split; [apply csv_unescape_escape|].
  split; [apply csv_escape_spec|apply csv_unescape_spec].
Qed.

(** ** Dates *)

Ltac dlia := Z.to_euclidean_division_equations; lia.

Lemma code_digit_char (k : Z) : 0 <= k <= 9 -> code (digit_char k) = 48 + k.
Proof.
  intros H. unfold code, digit_char.
  rewrite N_ascii_embedding by lia. lia.
Qed.

Lemma isdigit_digit_char (k : Z) : 0 <= k <= 9 -> isdigit (digit_char k) = true.
Proof.
  intros H. unfold isdigit. rewrite code_digit_char by exact H.
  apply andb_true_iff. split; apply Z.leb_le; lia.
Qed.

Lemma digit_val_digit_char (k : Z) : 0 <= k <= 9 -> digit_val (digit_char k) = k.
Proof. intros H. unfold digit_val. rewrite code_digit_char by exact H. lia. Qed.

Lemma isspace_digit (c : ascii) : isdigit c = true -> isspace c = false.
Proof.
  unfold isdigit, isspace. intros H. apply andb_true_iff in H as [H1 H2].
  apply Z.leb_le in H1. apply Z.leb_le in H2.
  apply orb_false_iff. split; [apply Z.eqb_neq; lia|].
  apply andb_false_iff. right. apply Z.leb_gt. lia.
Qed.

Lemma eqb_digit_other (c c' : ascii) :
  isdigit c = true -> isdigit c' = false -> Ascii.eqb c c' = false.
Proof.
  intros H H'. destruct (Ascii.eqb c c') eqn:E; [|reflexivity].
  apply eqb_ascii_true in E. subst c'. congruence.
Qed.

(** [stoi] on a text that starts with a digit: no space to skip, no sign. *)
Lemma stoi_digits (c : ascii) (s : string) :
  isdigit c = true ->
  stoi (String c s) =
  let v := digits_acc (String c s) 0 in
  if (INT_MIN <=? v) && (v <=? INT_MAX) then Some v else None.
Proof.
  intros H. unfold stoi.
  change (skip_space (String c s))
    with (if isspace c then skip_space s else String c s).
  rewrite (isspace_digit c H).
  rewrite (eqb_digit_other c ch_dash H eq_refl).
  rewrite (eqb_digit_other c ch_plus H eq_refl).
  unfold starts_with_digit. rewrite H. reflexivity.
Qed.

Lemma stoi_dec2 (n : Z) : 0 <= n <= 99 -> stoi (dec2 n) = Some n.
Proof.
  intros H. unfold dec2.
  assert (H1 : 0 <= n / 10 <= 9) by dlia.
  assert (H2 : 0 <= n mod 10 <= 9) by dlia.
  rewrite stoi_digits by (apply isdigit_digit_char; exact H1).
  cbn [digits_acc].
  rewrite !isdigit_digit_char, !digit_val_digit_char by assumption.
  replace ((0 * 10 + n / 10) * 10 + n mod 10) with n by dlia.
  cbv zeta.
  replace ((INT_MIN <=? n) && (n <=? INT_MAX)) with true; [reflexivity|].
  symmetry. apply andb_true_iff. unfold INT_MIN, INT_MAX. split; apply Z.leb_le; lia.
Qed.

Lemma stoi_dec4 (n : Z) : 0 <= n <= 9999 -> stoi (dec4 n) = Some n.
Proof.
  intros H. unfold dec4.
  assert (H1 : 0 <= n / 1000 <= 9) by dlia.
  assert (H2 : 0 <= n / 100 mod 10 <= 9) by dlia.
  assert (H3 : 0 <= n / 10 mod 10 <= 9) by dlia.
  assert (H4 : 0 <= n mod 10 <= 9) by dlia.
  rewrite stoi_digits by (apply isdigit_digit_char; exact H1).
  cbn [digits_acc].
  rewrite !isdigit_digit_char, !digit_val_digit_char by assumption.
  replace ((((0 * 10 + n / 1000) * 10 + n / 100 mod 10) * 10 + n / 10 mod 10) * 10
           + n mod 10) with n by dlia.
  cbv zeta.
  replace ((INT_MIN <=? n) && (n <=? INT_MAX)) with true; [reflexivity|].
  symmetry. apply andb_true_iff. unfold INT_MIN, INT_MAX. split; apply Z.leb_le; lia.
Qed.

Lemma ltb_false (a b : Z) : b <= a -> (a <? b) = false.
Proof. intros. apply Z.ltb_ge. assumption. Qed.

Lemma ltb_true (a b : Z) : a < b -> (a <? b) = true.
Proof. intros. apply Z.ltb_lt. assumption. Qed.

Lemma show_dec4 (n : Z) :
  1000 <= n <= 9999 -> setw_fill 4 ch_zero (show_int n) = dec4 n.
Proof.
  intros H. unfold show_int. rewrite (ltb_false n 0) by lia.
  cbn [show_digits].
  rewrite (ltb_false n 10) by lia.
  rewrite (ltb_false (n / 10) 10) by dlia.
  rewrite (ltb_false (n / 10 / 10) 10) by dlia.
  rewrite (ltb_true (n / 10 / 10 / 10) 10) by dlia.
  unfold setw_fill, dec4. simpl.
  replace (n / 10 / 10 / 10 mod 10) with (n / 1000) by dlia.
  replace (n / 10 / 10 mod 10) with (n / 100 mod 10) by dlia.
  reflexivity.
Qed.

Lemma show_dec2 (n : Z) :
  0 <= n <= 99 -> setw_fill 2 ch_zero (show_int n) = dec2 n.
Proof.
  intros H. unfold show_int. rewrite (ltb_false n 0) by lia.
  cbn [show_digits].
  destruct (n <? 10) eqn:E.
  - apply Z.ltb_lt in E. unfold setw_fill, dec2. simpl.
    replace (n / 10) with 0 by dlia. reflexivity.
  - apply Z.ltb_ge in E.
    rewrite (ltb_true (n / 10) 10) by dlia.
    unfold setw_fill, dec2. simpl.
    replace (n / 10 mod 10) with (n / 10) by dlia. reflexivity.
Qed.

Lemma valid_date_bounds (dt : Date) :
  valid_date dt = true ->
  1900 <= y dt /\ 1 <= m dt <= 12 /\ 1 <= d dt <= 31.
Proof.
  unfold valid_date. intros H.
  destruct (y dt <? 1900) eqn:E1; [discriminate|].
  destruct (m dt <? 1) eqn:E2; [discriminate|].
  destruct (m dt >? 12) eqn:E3; [discriminate|].
  destruct (d dt <? 1) eqn:E4; [discriminate|].
  simpl in H. apply Z.ltb_ge in E1, E2, E4.
  assert (E3' : m dt <= 12) by (destruct (Z.gtb_spec (m dt) 12); [discriminate|lia]).
  apply Z.leb_le in H.
  assert (Hm : m dt = 1 \/ m dt = 2 \/ m dt = 3 \/ m dt = 4 \/ m dt = 5 \/ m dt = 6
               \/ m dt = 7 \/ m dt = 8 \/ m dt = 9 \/ m dt = 10 \/ m dt = 11
               \/ m dt = 12) by lia.
  repeat split; try lia.
  destruct (is_leap (y dt));
    repeat (destruct Hm as [Hm|Hm]; [rewrite Hm in H; simpl in H; lia|]);
    rewrite Hm in H; simpl in H; lia.
Qed.

Lemma to_string_valid (dt : Date) :
  valid_date dt = true -> y dt <= 9999 ->
  to_string dt = dec4 (y dt) +:+ "-" +:+ dec2 (m dt) +:+ "-" +:+ dec2 (d dt).
Proof.
  intros V Hy. apply valid_date_bounds in V as (Hy' & Hm & Hd).
  unfold to_string.
  rewrite show_dec4, !show_dec2 by lia. reflexivity.
Qed.

Lemma parse_date_dec (yr mo dy : Z) :
  0 <= yr <= 9999 -> 0 <= mo <= 99 -> 0 <= dy <= 99 ->
  parse_date (dec4 yr +:+ "-" +:+ dec2 mo +:+ "-" +:+ dec2 dy) =
  if valid_date (mkDate yr mo dy) then Some (mkDate yr mo dy) else None.
Proof.
  intros Hy Hm Hd. unfold parse_date.
  change (substr (dec4 yr +:+ "-" +:+ dec2 mo +:+ "-" +:+ dec2 dy) 0 4) with (dec4 yr).
  change (substr (dec4 yr +:+ "-" +:+ dec2 mo +:+ "-" +:+ dec2 dy) 5 2) with (dec2 mo).
  change (substr (dec4 yr +:+ "-" +:+ dec2 mo +:+ "-" +:+ dec2 dy) 8 2) with (dec2 dy).
  rewrite stoi_dec4, !stoi_dec2 by assumption.
  reflexivity.
Qed.

Lemma parse_to_string_valid (dt : Date) :
  valid_date dt = true -> y dt <= 9999 ->
  parse_date (to_string dt) = Some dt.
Proof.
  intros V Hy. rewrite to_string_valid by assumption.
  pose proof (valid_date_bounds dt V) as (Hy' & Hm & Hd).
  rewrite parse_date_dec by lia.
  destruct dt as [yr mo dy]. simpl in *. rewrite V. reflexivity.
Qed.

Lemma is_leap_leap_year (yr : Z) : is_leap yr = leap_year yr.
Proof.
  unfold is_leap, leap_year.
  assert (H4 : (Z.rem yr 4 =? 0) = (yr mod 4 =? 0)).
  { destruct (Z.eqb_spec (Z.rem yr 4) 0), (Z.eqb_spec (yr mod 4) 0); try reflexivity; dlia. }
  assert (H100 : (Z.rem yr 100 =? 0) = (yr mod 100 =? 0)).
  { destruct (Z.eqb_spec (Z.rem yr 100) 0), (Z.eqb_spec (yr mod 100) 0); try reflexivity; dlia. }
  assert (H400 : (Z.rem yr 400 =? 0) = (yr mod 400 =? 0)).
  { destruct (Z.eqb_spec (Z.rem yr 400) 0), (Z.eqb_spec (yr mod 400) 0); try reflexivity; dlia. }
  rewrite H4, H100, H400. reflexivity.
Qed.

(** [valid_date] decides calendar validity. *)
Lemma valid_date_calendar (yr mo dy : Z) :
  valid_date (mkDate yr mo dy) = true <-> calendar_valid yr mo dy.
Proof.
  unfold valid_date, calendar_valid, month_length. simpl.
  rewrite is_leap_leap_year.
  destruct (Z.ltb_spec yr 1900); simpl; [split; [discriminate|lia]|].
  destruct (Z.ltb_spec mo 1); simpl; [split; [discriminate|lia]|].
  destruct (Z.gtb_spec mo 12); simpl; [split; [discriminate|lia]|].
  destruct (Z.ltb_spec dy 1); simpl; [split; [discriminate|lia]|].
  assert (Hm : mo = 1 \/ mo = 2 \/ mo = 3 \/ mo = 4 \/ mo = 5 \/ mo = 6
               \/ mo = 7 \/ mo = 8 \/ mo = 9 \/ mo = 10 \/ mo = 11
               \/ mo = 12) by lia.
  rewrite Z.leb_le.
  destruct (leap_year yr);
    repeat (destruct Hm as [Hm|Hm]; [subst mo; simpl; lia|]); subst mo; simpl; lia.
Qed.

(** C4 (amended). For every calendar-valid (y, m, d) whose year is between
    1900 and 9999, parsing the formatted text of the date succeeds and
    gives the date back. *)
Theorem parse_to_string_roundtrip (yr mo dy : Z) :
  calendar_valid yr mo dy -> yr <= 9999 ->
  parse_date (to_string (mkDate yr mo dy)) = Some (mkDate yr mo dy).
Proof.
  intros V Hy. apply valid_date_calendar in V.
  apply parse_to_string_valid; assumption.
Qed.

Lemma parse_to_string_roundtrip_witness :
  calendar_valid 2024 2 29 /\ 2024 <= 9999
  /\ parse_date (to_string (mkDate 2024 2 29)) = Some (mkDate 2024 2 29).
Proof.
  assert (V : calendar_valid 2024 2 29)
    by (unfold calendar_valid; change (month_length 2024 2) with 29; lia).
  split; [exact V|]. split; [lia|].
  apply (parse_to_string_roundtrip 2024 2 29 V). lia.
Defined.

(** C4, as stated, fails: (10000, 1, 1) is calendar-valid with a year of at
    least 1900, its text has eleven characters and [parse_date] refuses it. *)
Lemma parse_to_string_year_10000 :
  calendar_valid 10000 1 1
  /\ to_string (mkDate 10000 1 1) = "10000-01-01"
  /\ parse_date (to_string (mkDate 10000 1 1)) <> Some (mkDate 10000 1 1).
Proof.
  split; [unfold calendar_valid; change (month_length 10000 1) with 31; lia|].
  split; [reflexivity|discriminate].
Qed.

Lemma digit_val_bounds (c : ascii) : isdigit c = true -> 0 <= digit_val c <= 9.
Proof.
  unfold isdigit, digit_val. intros H. apply andb_true_iff in H as [H1 H2].
  apply Z.leb_le in H1, H2. lia.
Qed.

Lemma stoi_two_digits (c0 c1 : ascii) :
  isdigit c0 = true -> isdigit c1 = true ->
  stoi (String c0 (String c1 "")) = Some (digit_val c0 * 10 + digit_val c1).
Proof.
  intros H0 H1. rewrite stoi_digits by exact H0. cbn [digits_acc].
  rewrite H0, H1. cbv zeta.
  pose proof (digit_val_bounds c0 H0). pose proof (digit_val_bounds c1 H1).
  replace ((0 * 10 + digit_val c0) * 10 + digit_val c1)
    with (digit_val c0 * 10 + digit_val c1) by lia.
  replace ((INT_MIN <=? _) && (_ <=? INT_MAX)) with true; [reflexivity|].
  symmetry. apply andb_true_iff. unfold INT_MIN, INT_MAX. split; apply Z.leb_le; lia.
Qed.

Lemma stoi_four_digits (c0 c1 c2 c3 : ascii) :
  isdigit c0 = true -> isdigit c1 = true -> isdigit c2 = true -> isdigit c3 = true ->
  stoi (String c0 (String c1 (String c2 (String c3 ""))))
  = Some (digit_val c0 * 1000 + digit_val c1 * 100 + digit_val c2 * 10 + digit_val c3).
Proof.
  intros H0 H1 H2 H3. rewrite stoi_digits by exact H0. cbn [digits_acc].
  rewrite H0, H1, H2, H3. cbv zeta.
  pose proof (digit_val_bounds c0 H0). pose proof (digit_val_bounds c1 H1).
  pose proof (digit_val_bounds c2 H2). pose proof (digit_val_bounds c3 H3).
  replace ((((0 * 10 + digit_val c0) * 10 + digit_val c1) * 10 + digit_val c2) * 10
           + digit_val c3)
    with (digit_val c0 * 1000 + digit_val c1 * 100 + digit_val c2 * 10 + digit_val c3)
    by lia.
  replace ((INT_MIN <=? _) && (_ <=? INT_MAX)) with true; [reflexivity|].
  symmetry. apply andb_true_iff. unfold INT_MIN, INT_MAX. split; apply Z.leb_le; lia.
Qed.

(** The direction of C2 that holds: a text of the pattern YYYY-MM-DD is
    accepted exactly when the numbers its digits spell are a calendar-valid
    date, and that date is the result. *)
Lemma parse_date_pattern (s : string) :
  matches_pattern s = true ->
  parse_date s =
  (if valid_date (mkDate (four_digits s 0) (two_digits s 5) (two_digits s 8))
   then Some (mkDate (four_digits s 0) (two_digits s 5) (two_digits s 8))
   else None).
Proof.
  unfold matches_pattern. intros H.
  repeat (apply andb_true_iff in H as [H ?]).
  apply Z.eqb_eq in H. unfold size in H.
  do 10 (destruct s as [|? s]; [simpl in H; lia|]).
  destruct s; [|simpl in H; lia].
  unfold at_ in *. simpl in * |-.
  unfold parse_date, four_digits, two_digits, at_, size, substr. simpl.
  repeat match goal with
         | E : Ascii.eqb ?c ch_dash = true |- _ => rewrite E; clear E
         end.
  simpl.
  rewrite stoi_four_digits, !stoi_two_digits by assumption.
  reflexivity.
Qed.

Example parse_date_rejections :
  parse_date "2023-02-29" = None /\ parse_date "2024-02-29" = Some (mkDate 2024 2 29)
  /\ parse_date "2023-13-01" = None /\ parse_date "23-01-01" = None
  /\ parse_date "2023/01/01" = None /\ parse_date "1899-12-31" = None.
Proof. repeat split. Qed.

(** C2, at a failing input: the month and day fields are not two digits
    each, yet [parse_date] accepts the text, because [std::stoi] skips
    leading white space, takes a sign and stops at the first character
    that is not a digit. *)
Theorem parse_date_accepts_non_digits :
  matches_pattern "2024-1x-+5" = false
  /\ parse_date "2024-1x-+5" = Some (mkDate 2024 1 5)
  /\ parse_date "2024- 7- 4" = Some (mkDate 2024 7 4).
Proof. repeat split. Qed.

(** ** Queries *)

(** [date_le] is the year-then-month-then-day order. *)
Lemma date_le_leqb (a b : Date) : date_le a b = date_leqb a b.
Proof.
  unfold date_le, date_leqb, date_compare.
  destruct (Z.compare_spec (y a) (y b)) as [Ey|Ey|Ey].
  - rewrite (ltb_false (y a) (y b)) by lia.
    rewrite (proj2 (Z.eqb_eq _ _) Ey). simpl.
    destruct (Z.compare_spec (m a) (m b)) as [Em|Em|Em].
    + rewrite (ltb_false (m a) (m b)) by lia.
      rewrite (proj2 (Z.eqb_eq _ _) Em). simpl.
      destruct (Z.compare_spec (d a) (d b)); [apply Z.leb_le|apply Z.leb_le|apply Z.leb_gt]; lia.
    + rewrite (ltb_true (m a) (m b)) by lia. reflexivity.
    + rewrite (ltb_false (m a) (m b)) by lia.
      rewrite (proj2 (Z.eqb_neq _ _)) by lia. reflexivity.
  - rewrite (ltb_true (y a) (y b)) by lia. reflexivity.
  - rewrite (ltb_false (y a) (y b)) by lia.
    rewrite (proj2 (Z.eqb_neq _ _)) by lia. reflexivity.
Qed.

Lemma date_leqb_leq (a b : Date) : date_leqb a b = true <-> date_leq a b.
Proof.
  unfold date_leqb, date_leq. destruct (date_compare a b); split; congruence.
Qed.

(** The loop of a filter: the records that pass are pushed at the back. *)
Lemma filter_loop (f : Expense -> bool) (l out : list Expense) :
  fold_left (fun out e => if f e then out ++ [e] else out) l out
  = out ++ List.filter f l.
Proof.
  revert out. induction l as [|e l IH]; intros out; simpl.
  - rewrite List.app_nil_r. reflexivity.
  - rewrite IH. destruct (f e); [|reflexivity].
    rewrite <- List.app_assoc. reflexivity.
Qed.

Lemma sublist_list_filter {A : Type} (f : A -> bool) (l : list A) :
  sublist (List.filter f l) l.
Proof.
  induction l as [|x l IH]; simpl; [constructor|].
  destruct (f x); constructor; exact IH.
Qed.

(** C6. [filter_by_date_range from to] returns exactly the records of the
    store whose date lies between [from] and [to], both ends included, in
    the year-then-month-then-day order, and it keeps them in the order
    they have in the store. *)
Theorem filter_by_date_range_spec (from to : Date) (expenses : list Expense) :
  filter_by_date_range from to expenses
  = List.filter (fun e => date_leqb from (date e) && date_leqb (date e) to) expenses
  /\ (forall e, In e (filter_by_date_range from to expenses)
                <-> In e expenses /\ date_leq from (date e) /\ date_leq (date e) to)
  /\ sublist (filter_by_date_range from to expenses) expenses.
Proof.
  assert (E : filter_by_date_range from to expenses
              = List.filter (fun e => date_leqb from (date e) && date_leqb (date e) to) expenses).
  { unfold filter_by_date_range. rewrite filter_loop. simpl.
    apply filter_ext. intros e. unfold in_range. rewrite !date_le_leqb. reflexivity. }
  split; [exact E|]. split.
  - intros e. rewrite E, filter_In, andb_true_iff, !date_leqb_leq. reflexivity.
  - rewrite E. apply sublist_list_filter.
Qed.

Example filter_by_date_range_inclusive :
  let e1 := mkExpense (mkDate 2024 1 1) 1 "a" "" in
  let e2 := mkExpense (mkDate 2024 1 15) 2 "b" "" in
  let e3 := mkExpense (mkDate 2024 2 1) 3 "c" "" in
  filter_by_date_range (mkDate 2024 1 1) (mkDate 2024 1 15) [e1; e2; e3] = [e1; e2].
Proof. reflexivity. Qed.

(** ** Totals by category *)

Lemma compare_refl (s : string) : String.compare s s = Eq.
Proof.
  induction s as [|c s IH]; [reflexivity|].
  simpl. unfold Ascii.compare. rewrite N.compare_refl. exact IH.
Qed.

Lemma compare_lt_trans (a b c : string) :
  String.compare a b = Lt -> String.compare b c = Lt -> String.compare a c = Lt.
Proof.
  revert b c. induction a as [|x a IH]; intros [|y b] [|z c] Hab Hbc;
    simpl in *; try discriminate; try reflexivity.
  destruct (Ascii.compare x y) eqn:Exy; try discriminate.
  - apply Ascii.compare_eq_iff in Exy. subst y.
    destruct (Ascii.compare x z); try discriminate; [eapply IH; eassumption|reflexivity].
  - destruct (Ascii.compare y z) eqn:Eyz; try discriminate.
    + apply Ascii.compare_eq_iff in Eyz. subst z. rewrite Exy. reflexivity.
    + unfold Ascii.compare in *. rewrite N.compare_lt_iff in Exy, Eyz.
      assert (H : (N_of_ascii x ?= N_of_ascii z)%N = Lt) by (apply N.compare_lt_iff; lia).
      rewrite H. reflexivity.
Qed.

Lemma eqb_compare (a b : string) :
  String.eqb a b = match String.compare a b with Eq => true | _ => false end.
Proof.
  destruct (String.eqb_spec a b) as [->|N].
  - rewrite compare_refl. reflexivity.
  - destruct (String.compare a b) eqn:E; try reflexivity.
    apply String.compare_eq_iff in E. contradiction.
Qed.

Lemma map_find_below (k : string) (x : float) (mp : list (string * float)) :
  Forall (key_lt (k, x)) mp -> map_find k mp = None.
Proof.
  induction 1 as [|[k1 v1] mp H _ IH]; [reflexivity|].
  simpl. unfold key_lt in H. simpl in H.
  rewrite eqb_compare, H. exact IH.
Qed.

Lemma key_lt_trans (p q : string * float) (mp : list (string * float)) :
  key_lt p q -> Forall (key_lt q) mp -> Forall (key_lt p) mp.
Proof.
  intros Hpq H. induction H as [|r mp Hr _ IH]; constructor; [|exact IH].
  unfold key_lt in *. eapply compare_lt_trans; eassumption.
Qed.

Lemma map_add_keys (P : string -> Prop) (k : string) (a : float)
    (mp : list (string * float)) :
  P k -> Forall (fun p => P (fst p)) mp ->
  Forall (fun p => P (fst p)) (map_add k a mp).
Proof.
  intros Hk H. induction H as [|[k1 v1] mp H1 H IH]; simpl.
  - constructor; [exact Hk|constructor].
  - destruct (String.compare k k1).
    + constructor; assumption.
    + constructor; [exact Hk|]. constructor; assumption.
    + constructor; assumption.
Qed.

Lemma map_add_sorted (k : string) (a : float) (mp : list (string * float)) :
  StronglySorted key_lt mp -> StronglySorted key_lt (map_add k a mp).
Proof.
  induction 1 as [|[k1 v1] mp S IH F]; simpl.
  - constructor; constructor.
  - destruct (String.compare k k1) eqn:E.
    + constructor; assumption.
    + constructor; [constructor; assumption|].
      constructor; [exact E|].
      apply (key_lt_trans _ (k1, v1)); [exact E|exact F].
    + constructor; [exact IH|].
      apply (map_add_keys (fun k' => String.compare k1 k' = Lt)); [|exact F].
      rewrite String.compare_antisym, E. reflexivity.
Qed.

Lemma map_find_add (k k' : string) (a : float) (mp : list (string * float)) :
  StronglySorted key_lt mp ->
  map_find k' (map_add k a mp) =
  if String.eqb k' k then Some (find_or_zero k mp + a)%float else map_find k' mp.
Proof.
  unfold find_or_zero.
  induction 1 as [|[k1 v1] mp S IH F]; simpl; [reflexivity|].
  destruct (String.compare k k1) eqn:E.
  - apply String.compare_eq_iff in E. subst k1. simpl.
    rewrite String.eqb_refl. destruct (String.eqb k' k); reflexivity.
  - simpl. rewrite (eqb_compare k k1), E.
    rewrite (map_find_below k v1 mp); [reflexivity|].
    apply (key_lt_trans _ (k1, v1)); [exact E|exact F].
  - simpl. rewrite IH. rewrite (eqb_compare k k1), E.
    destruct (String.eqb_spec k' k1) as [->|N]; [|reflexivity].
    rewrite (eqb_compare k1 k), String.compare_antisym, E. reflexivity.
Qed.

Lemma map_find_in (k : string) (v : float) (mp : list (string * float)) :
  StronglySorted key_lt mp -> (In (k, v) mp <-> map_find k mp = Some v).
Proof.
  induction 1 as [|[k1 v1] mp S IH F]; simpl; [split; [tauto|discriminate]|].
  destruct (String.eqb_spec k k1) as [->|N].
  - split.
    + intros [H|H]; [congruence|].
      rewrite List.Forall_forall in F. apply F in H. unfold key_lt in H. simpl in H.
      rewrite compare_refl in H. discriminate.
    + intros H. left. congruence.
  - rewrite <- IH. split; [intros [H|H]; [congruence|exact H]|tauto].
Qed.

Lemma sum_for_absent (k : string) (l : list Expense) :
  existsb (has_key k) l = false -> sum_for k l = 0%float.
Proof.
  unfold sum_for. induction l as [|e l IH]; simpl; [reflexivity|].
  intros H. apply orb_false_iff in H as [H1 H2]. rewrite H1. apply IH, H2.
Qed.

Lemma totals_spec_snoc (k : string) (l : list Expense) (e : Expense) :
  totals_spec k (l ++ [e]) =
  if has_key k e
  then Some (match totals_spec k l with Some v => v | None => 0%float end + amount e)%float
  else totals_spec k l.
Proof.
  unfold totals_spec, sum_for.
  rewrite existsb_app, List.filter_app. simpl.
  destruct (has_key k e) eqn:E.
  - rewrite orb_true_r, fold_left_app. simpl.
    destruct (existsb (has_key k) l) eqn:X; [reflexivity|].
    pose proof (sum_for_absent k l X) as Z. unfold sum_for in Z. rewrite Z. reflexivity.
  - rewrite orb_false_r, List.app_nil_r. reflexivity.
Qed.

Lemma totals_invariant (l : list Expense) :
  StronglySorted key_lt (totals_by_category l)
  /\ forall k, map_find k (totals_by_category l) = totals_spec k l.
Proof.
  induction l as [|e l [S F]] using rev_ind.
  - split; [constructor|reflexivity].
  - unfold totals_by_category in *. rewrite fold_left_app. simpl. split.
    + apply map_add_sorted, S.
    + intros k. rewrite map_find_add by exact S. rewrite totals_spec_snoc.
      unfold has_key, find_or_zero. rewrite (String.eqb_sym k).
      destruct (String.eqb_spec (to_lower (category e)) k) as [<-|N].
      * rewrite F. reflexivity.
      * apply F.
Qed.

(** [to_lower] gives the lowercase form, character by character. *)
Lemma tolower_lower_letter (c : ascii) : tolower c = lower_letter c.
Proof. destruct c as [[] [] [] [] [] [] [] []]; reflexivity. Qed.

Lemma to_lower_lowercase (s : string) : to_lower s = lowercase s.
Proof.
  induction s as [|c s IH]; [reflexivity|].
  cbn [to_lower lowercase]. rewrite tolower_lower_letter, IH. reflexivity.
Qed.

Lemma has_key_label (k : string) (e : Expense) : has_key k e = has_label k e.
Proof. unfold has_key, has_label. rewrite to_lower_lowercase. reflexivity. Qed.

Lemma totals_spec_label (k : string) (l : list Expense) :
  totals_spec k l = if existsb (has_label k) l then Some (sum_label k l) else None.
Proof.
  unfold totals_spec, sum_for, sum_label.
  rewrite (filter_ext _ _ (has_key_label k)).
  replace (existsb (has_key k) l) with (existsb (has_label k) l); [reflexivity|].
  induction l as [|e l IH]; [reflexivity|]. simpl. rewrite IH, has_key_label. reflexivity.
Qed.

(** C8. [totals_by_category l] maps each lowercase category label to the
    sum of the amounts of the records whose category has that lowercase
    form, added in the order of the records: [to_lower] turns each of the
    letters A to Z into its small letter and leaves every other character;
    every record is counted in the one entry under the lowercase form of
    its category, so categories that differ in case only are merged; there
    is no other entry; and the entries come in ascending order of their
    keys. *)
Theorem totals_by_category_spec (l : list Expense) :
  StronglySorted key_lt (totals_by_category l)
  /\ (forall s, to_lower s = lowercase s)
  /\ (forall k v, In (k, v) (totals_by_category l)
                  <-> existsb (has_label k) l = true /\ v = sum_label k l)
  /\ (forall k, map_find k (totals_by_category l)
                = if existsb (has_label k) l then Some (sum_label k l) else None)
  /\ (forall e, In e l ->
        In (lowercase (category e), sum_label (lowercase (category e)) l)
           (totals_by_category l)).
Proof.
  destruct (totals_invariant l) as [S F].
  assert (M : forall k v, In (k, v) (totals_by_category l)
                <-> existsb (has_label k) l = true /\ v = sum_label k l).
  { intros k v. rewrite (map_find_in k v _ S), F, totals_spec_label.
    destruct (existsb (has_label k) l); split.
    - intros H. split; [reflexivity|congruence].
    - intros [_ ->]. reflexivity.
    - discriminate.
    - intros [H _]. discriminate. }
  split; [exact S|]. split; [apply to_lower_lowercase|]. split; [exact M|]. split.
  - intros k. rewrite F. apply totals_spec_label.
  - intros e Hin. apply M. split; [|reflexivity].
    apply existsb_exists. exists e. split; [exact Hin|].
    unfold has_label. apply String.eqb_refl.
Qed.

Lemma totals_by_category_spec_witness :
  In (mkExpense (mkDate 2024 1 1) 10 "Food" "") ex_mixed_case
  /\ In (mkExpense (mkDate 2024 1 4) 0.25 "FOOD" "") ex_mixed_case
  /\ lowercase "Food" = "food" /\ lowercase "FOOD" = "food"
  /\ In ("food", 15.75%float) (totals_by_category ex_mixed_case)
  /\ totals_by_category ex_mixed_case = [("food", 15.75%float); ("rent", 20%float)].
Proof.
  assert (H1 : In (mkExpense (mkDate 2024 1 1) 10 "Food" "") ex_mixed_case)
    by (left; reflexivity).
  assert (H4 : In (mkExpense (mkDate 2024 1 4) 0.25 "FOOD" "") ex_mixed_case)
    by (right; right; right; left; reflexivity).
  split; [exact H1|]. split; [exact H4|].
  split; [reflexivity|]. split; [reflexivity|]. split; [|reflexivity].
  destruct (totals_by_category_spec ex_mixed_case) as (_ & _ & _ & _ & E).
  exact (E _ H4).
Defined.

Example totals_by_category_merges_case :
  totals_by_category
    [mkExpense (mkDate 2024 1 1) 10 "Food" ""; mkExpense (mkDate 2024 1 2) 5.5 "food" "";
     mkExpense (mkDate 2024 1 3) 20 "Rent" ""]
  = [("food", 15.5%float); ("rent", 20%float)].
Proof. reflexivity. Qed.

(** ** Loading *)

Lemma split_loop_cols (line : string) (cols : list string) (cur : string) (q : bool) :
  split_loop line cols cur q = cols ++ split_loop line [] cur q.
Proof.
  revert cols cur q. induction line as [|c line IH]; intros cols cur q; simpl.
  - reflexivity.
  - destruct (Ascii.eqb c ch_quote); [apply IH|].
    destruct (Ascii.eqb c ch_comma && negb q); [|apply IH].
    rewrite IH, (IH ([] ++ [cur])). rewrite <- List.app_assoc. reflexivity.
Qed.

Lemma prefix_app (a b : string) :
  String.prefix a b = true -> exists r, b = a +:+ r.
Proof.
  revert b. induction a as [|c a IH]; intros b H.
  - exists b. reflexivity.
  - destruct b as [|c' b]; [discriminate|]. simpl in H.
    destruct (ascii_dec c c') as [->|]; [|discriminate].
    destruct (IH b H) as [r ->]. exists r. reflexivity.
Qed.

Lemma prefix_refl (a r : string) : String.prefix a (a +:+ r) = true.
Proof.
  induction a as [|c a IH]; [destruct r; reflexivity|].
  rewrite sapp_cons. simpl. destruct (ascii_dec c c); [exact IH|contradiction].
Qed.

(** The first field of a line that starts with the header text is the
    word date. *)
Lemma header_first_col (r : string) :
  exists cols, csv_split_line (header +:+ r) = "date" :: cols.
Proof.
  unfold csv_split_line.
  change (header +:+ r) with ("date," +:+ ("amount,category,description" +:+ r)).
  generalize ("amount,category,description" +:+ r). intros t.
  change (split_loop ("date," +:+ t) [] "" false) with (split_loop t ["date"] "" false).
  rewrite split_loop_cols. simpl. eexists. reflexivity.
Qed.

Section LoadProperties.

Variable stod : string -> option float.

Lemma header_no_decode (line : string) :
  String.prefix header line = true -> decode_line stod line = None.
Proof.
  intros H. apply prefix_app in H as [r ->].
  unfold decode_line. destruct (header_first_col r) as [cols ->].
  destruct (4 <=? length ("date" :: cols))%nat; reflexivity.
Qed.

Lemma parse_csv_line_decode (line : string) (expenses : list Expense) :
  parse_csv_line stod line expenses
  = expenses ++ option_list (decode_line stod line).
Proof.
  unfold parse_csv_line, decode_line.
  destruct (Z.ltb_spec (Z.of_nat (length (csv_split_line line))) 4) as [L|L].
  - rewrite (proj2 (Nat.leb_gt _ _)) by lia. simpl. rewrite List.app_nil_r. reflexivity.
  - rewrite (proj2 (Nat.leb_le _ _)) by lia.
    destruct (parse_date _); simpl; [|rewrite List.app_nil_r; reflexivity].
    destruct (stod _); simpl; [reflexivity|rewrite List.app_nil_r; reflexivity].
Qed.

Lemma parse_lines_decode (lines : list string) (expenses : list Expense) :
  fold_left (fun ex l => parse_csv_line stod l ex) lines expenses
  = expenses ++ omap (decode_line stod) lines.
Proof.
  revert expenses. induction lines as [|l lines IH]; intros expenses; simpl.
  - rewrite List.app_nil_r. reflexivity.
  - rewrite IH, parse_csv_line_decode, <- List.app_assoc.
    destruct (decode_line stod l); reflexivity.
Qed.

(** What [load_csv] leaves in the store when the file opens: the records
    of all the lines that decode, the first line included. *)
Lemma load_csv_opened (fs : FileSystem) (path text : string) (expenses : list Expense) :
  files fs !! path = Some text ->
  load_csv stod fs path expenses = (true, omap (decode_line stod) (getlines text "")).
Proof.
  intros H. unfold load_csv. rewrite H.
  destruct (getlines text "") as [|line rest]; [reflexivity|].
  rewrite parse_lines_decode. f_equal.
  destruct (String.prefix header line) eqn:P; simpl.
  - rewrite (header_no_decode line P). reflexivity.
  - rewrite parse_csv_line_decode. simpl.
    destruct (decode_line stod line); reflexivity.
Qed.

Lemma load_lines_spec_decode (lines : list string) :
  load_lines_spec stod lines = omap (decode_line stod) lines.
Proof.
  unfold load_lines_spec. destruct lines as [|line rest]; [reflexivity|].
  simpl. destruct (String.eqb_spec line header) as [->|N].
  - rewrite header_no_decode; [reflexivity|].
    rewrite <- (sapp_nil_r header) at 2. apply prefix_refl.
  - destruct (decode_line stod line); reflexivity.
Qed.

(** The loop of the traced loader: the store as [load_csv] builds it, and
    every line written down. *)
Lemma traced_lines (rest : list string) (st : list Expense * list string) :
  fold_left (fun st l => (parse_csv_line stod l (fst st), snd st ++ [l])) rest st
  = (fold_left (fun ex l => parse_csv_line stod l ex) rest (fst st), snd st ++ rest).
Proof.
  revert st. induction rest as [|l rest IH]; intros [ex calls]; simpl.
  - rewrite List.app_nil_r. reflexivity.
  - rewrite IH. simpl. rewrite <- List.app_assoc. reflexivity.
Qed.

(** C5 (amended). When the file opens, the first line is handed to
    [parse_csv_line] exactly when it does not start with the header text
    [date,amount,category,description]; a first line that starts with it,
    the header line itself included, is skipped; every later line is
    handed to [parse_csv_line].  A line that starts with the header text
    decodes to no record, so the store is the one that skipping only the
    exact header line would give. *)
Theorem load_csv_first_line (fs : FileSystem) (path text first : string)
    (rest : list string) (expenses : list Expense) :
  files fs !! path = Some text ->
  getlines text "" = first :: rest ->
  load_csv_traced stod fs path expenses
  = (load_csv stod fs path expenses,
     if String.prefix header first then rest else first :: rest)
  /\ (first = header ->
      load_csv_traced stod fs path expenses = (load_csv stod fs path expenses, rest))
  /\ load_csv stod fs path expenses = (true, load_lines_spec stod (first :: rest)).
Proof.
  intros H G.
  assert (T : load_csv_traced stod fs path expenses
              = (load_csv stod fs path expenses,
                 if String.prefix header first then rest else first :: rest)).
  { unfold load_csv_traced, load_csv. rewrite H, G.
    rewrite traced_lines.
    destruct (String.prefix header first); reflexivity. }
  split; [exact T|]. split.
  - intros ->. rewrite T. reflexivity.
  - rewrite (load_csv_opened fs path text expenses H), G, load_lines_spec_decode.
    reflexivity.
Qed.

(** C9. Whenever the file opens, [load_csv] reports success and the store
    holds, in the order of the file, the records of exactly the lines that
    decode; each line either appends its record or leaves the store as it
    is; and a line does not decode exactly when it has fewer than four
    fields, or its date field does not parse, or its amount field is not
    read as a number. *)
Theorem load_csv_lenient (fs : FileSystem) (path text : string)
    (expenses : list Expense) :
  files fs !! path = Some text ->
  load_csv stod fs path expenses = (true, omap (decode_line stod) (getlines text ""))
  /\ (forall line store,
        parse_csv_line stod line store = store ++ option_list (decode_line stod line))
  /\ (forall line,
        decode_line stod line = None
        <-> ((length (csv_split_line line) < 4)%nat
             \/ parse_date (nth 0 (csv_split_line line) "") = None
             \/ stod (nth 1 (csv_split_line line) "") = None)).
Proof.
  intros H. split; [apply load_csv_opened, H|].
  split; [apply parse_csv_line_decode|].
  intros line. unfold decode_line.
  destruct (Nat.leb_spec 4 (length (csv_split_line line))) as [L|L].
  - destruct (parse_date _); simpl.
    + destruct (stod _); simpl.
      * split; [discriminate|]. intros [X|[X|X]]; [lia|discriminate|discriminate].
      * split; [intros _; right; right; reflexivity|reflexivity].
    + split; [intros _; right; left; reflexivity|reflexivity].
  - split; [intros _; left; exact L|reflexivity].
Qed.

(** C10. When the file cannot be opened, [load_csv] reports failure and
    leaves the store as it was; when it can be opened, the records the
    store held before are gone, whatever the file contains. *)
Theorem load_csv_failure_keeps_store (fs : FileSystem) (path : string)
    (expenses : list Expense) :
  (files fs !! path = None -> load_csv stod fs path expenses = (false, expenses))
  /\ (forall text, files fs !! path = Some text ->
        load_csv stod fs path expenses = load_csv stod fs path [])
  /\ (fst (load_csv stod fs path expenses) = false <-> files fs !! path = None).
Proof.
  split; [|split].
  - intros H. unfold load_csv. rewrite H. reflexivity.
  - intros text H. rewrite !(load_csv_opened fs path text) by exact H. reflexivity.
  - unfold load_csv. destruct (files fs !! path) as [text|].
    + destruct (getlines text ""); simpl; split; discriminate.
    + simpl. split; reflexivity.
Qed.

End LoadProperties.

Lemma load_csv_first_line_witness :
  files (fs_with ex_header_text) !! "expenses.csv" = Some ex_header_text
  /\ getlines ex_header_text "" = [header; "2024-01-15,42.5,Food,Groceries"]
  /\ load_csv_traced StdText.stod (fs_with ex_header_text) "expenses.csv" [ex_rent]
     = (true, [ex_food], ["2024-01-15,42.5,Food,Groceries"])
  /\ files (fs_with ex_text) !! "expenses.csv" = Some ex_text
  /\ snd (load_csv_traced StdText.stod (fs_with ex_text) "expenses.csv" [ex_rent])
     = getlines ex_text "".
Proof.
  assert (H : files (fs_with ex_header_text) !! "expenses.csv" = Some ex_header_text)
    by reflexivity.
  assert (G : getlines ex_header_text "" = [header; "2024-01-15,42.5,Food,Groceries"])
    by reflexivity.
  assert (H' : files (fs_with ex_text) !! "expenses.csv" = Some ex_text) by reflexivity.
  assert (G' : getlines ex_text ""
               = "2024-01-15,42.5,Food,Groceries"
                 :: ["2024-13-01,3,Food,no such month"; "2024-01-02,abc,Food,no number";
                     "2024-01-03,7"])
    by reflexivity.
  split; [exact H|]. split; [exact G|]. split; [|split; [exact H'|]].
  - rewrite (proj1 (load_csv_first_line StdText.stod (fs_with ex_header_text)
                      "expenses.csv" ex_header_text _ _ [ex_rent] H G)).
    reflexivity.
  - rewrite (proj1 (load_csv_first_line StdText.stod (fs_with ex_text)
                      "expenses.csv" ex_text _ _ [ex_rent] H' G')).
    reflexivity.
Defined.

(** C5, as stated, fails: a first line that starts with the header text and
    goes on is not the header text, and yet it is not handed to
    [parse_csv_line]: the only line parsed is the second. *)
Lemma load_csv_skips_header_prefix :
  getlines ex_header_notes_text ""
  = ["date,amount,category,description,notes"; "2024-01-15,42.5,Food,Groceries"]
  /\ String.eqb "date,amount,category,description,notes" header = false
  /\ load_csv_traced StdText.stod (fs_with ex_header_notes_text) "expenses.csv" []
     = (true, [ex_food], ["2024-01-15,42.5,Food,Groceries"]).
Proof. repeat split. Qed.

Lemma load_csv_lenient_witness :
  files (fs_with ex_text) !! "expenses.csv" = Some ex_text
  /\ load_csv StdText.stod (fs_with ex_text) "expenses.csv" [ex_rent] = (true, [ex_food]).
Proof.
  assert (H : files (fs_with ex_text) !! "expenses.csv" = Some ex_text) by reflexivity.
  split; [exact H|].
  destruct (load_csv_lenient StdText.stod (fs_with ex_text) "expenses.csv" ex_text [ex_rent] H)
    as (L & _).
  rewrite L. reflexivity.
Defined.

Lemma load_csv_failure_keeps_store_witness :
  files fs_empty !! "expenses.csv" = None
  /\ load_csv StdText.stod fs_empty "expenses.csv" [ex_food; ex_rent]
     = (false, [ex_food; ex_rent])
  /\ files (fs_with ex_text) !! "expenses.csv" = Some ex_text
  /\ load_csv StdText.stod (fs_with ex_text) "expenses.csv" [ex_rent]
     = load_csv StdText.stod (fs_with ex_text) "expenses.csv" [].
Proof.
  assert (H : files fs_empty !! "expenses.csv" = None) by reflexivity.
  assert (H' : files (fs_with ex_text) !! "expenses.csv" = Some ex_text) by reflexivity.
  split; [exact H|]. split; [|split; [exact H'|]].
  - apply (load_csv_failure_keeps_store StdText.stod fs_empty "expenses.csv"
             [ex_food; ex_rent]), H.
  - apply (load_csv_failure_keeps_store StdText.stod (fs_with ex_text) "expenses.csv"
             [ex_rent]) with (text := ex_text), H'.
Defined.

(** ** The sign of amounts *)

Section Amounts.

Variable stod : string -> option float.

Lemma read_amount_nonneg (input rest : list string) (a : float) :
  read_amount stod input = Some (a, rest) -> (0 <=? a)%float = true.
Proof.
  induction input as [|s input IH]; simpl; [discriminate|].
  destruct (stod s) as [a'|]; [|exact IH].
  destruct (0 <=? a')%float eqn:E; [|exact IH].
  intros H. injection H as -> _. exact E.
Qed.

Lemma prompt_expense_nonneg (input rest : list string) (e : Expense) :
  prompt_expense stod input = Some (e, rest) -> nonneg e.
Proof.
  unfold prompt_expense.
  destruct (read_date input) as [[dt in1]|]; [|discriminate].
  destruct (read_amount stod in1) as [[a in2]|] eqn:A; [|discriminate].
  destruct (read_line in2) as [cat in3]. destruct (read_line in3) as [desc in4].
  intros H. injection H as <- _. unfold nonneg. simpl.
  eapply read_amount_nonneg, A.
Qed.

(** C3 (amended). The sign of an amount is checked at interactive entry
    only: a record [prompt_expense] returns has an amount of at least 0.
    [add] and [load_csv] store the amount they are given or read: [add]
    keeps the invariant when the added record has an amount of at least 0,
    and after [load_csv] has opened the file the invariant holds exactly
    when every line that decodes has an amount of at least 0. *)
Theorem store_invariant_by_entry (input rest : list string) (e e' : Expense)
    (expenses : list Expense) (fs : FileSystem) (path text : string) :
  (prompt_expense stod input = Some (e', rest) -> nonneg e')
  /\ (store_inv expenses -> nonneg e -> store_inv (add e expenses))
  /\ (files fs !! path = Some text ->
      (store_inv (snd (load_csv stod fs path expenses))
       <-> forall line x, In line (getlines text "") ->
                          decode_line stod line = Some x -> nonneg x)).
Proof.
  split; [apply prompt_expense_nonneg|]. split.
  - intros S N. unfold store_inv, add. apply Forall_app. split; [exact S|].
    constructor; [exact N|constructor].
  - intros H. rewrite (load_csv_opened stod fs path text expenses H). simpl.
    unfold store_inv. rewrite List.Forall_forall. split.
    + intros F line x Hin D. apply F.
      apply list_elem_of_In, list_elem_of_omap. exists line.
      split; [apply list_elem_of_In, Hin|exact D].
    + intros F x Hx. apply list_elem_of_In, list_elem_of_omap in Hx as (line & Hin & D).
      apply (F line x); [apply list_elem_of_In, Hin|exact D].
Qed.

End Amounts.

Lemma store_invariant_by_entry_witness :
  prompt_expense StdText.stod ["2024-02-30"; "2024-01-15"; "-3"; "42.5"; ""; "Groceries"]
    = Some (mkExpense (mkDate 2024 1 15) 42.5 "Uncategorized" "Groceries", [])
  /\ nonneg (mkExpense (mkDate 2024 1 15) 42.5 "Uncategorized" "Groceries")
  /\ store_inv [ex_food] /\ nonneg ex_rent /\ store_inv (add ex_rent [ex_food])
  /\ files (fs_with ex_text) !! "expenses.csv" = Some ex_text
  /\ store_inv (snd (load_csv StdText.stod (fs_with ex_text) "expenses.csv" [])).
Proof.
  pose proof (store_invariant_by_entry StdText.stod
                ["2024-02-30"; "2024-01-15"; "-3"; "42.5"; ""; "Groceries"] []
                ex_rent (mkExpense (mkDate 2024 1 15) 42.5 "Uncategorized" "Groceries")
                [ex_food] (fs_with ex_text) "expenses.csv" ex_text) as (P & A & _).
  pose proof (store_invariant_by_entry StdText.stod [] [] ex_rent ex_rent
                [] (fs_with ex_text) "expenses.csv" ex_text) as (_ & _ & L).
  assert (E : prompt_expense StdText.stod
                ["2024-02-30"; "2024-01-15"; "-3"; "42.5"; ""; "Groceries"]
              = Some (mkExpense (mkDate 2024 1 15) 42.5 "Uncategorized" "Groceries", []))
    by reflexivity.
  assert (S : store_inv [ex_food]) by (repeat constructor).
  assert (N : nonneg ex_rent) by reflexivity.
  assert (H : files (fs_with ex_text) !! "expenses.csv" = Some ex_text) by reflexivity.
  split; [exact E|]. split; [exact (P E)|]. split; [exact S|]. split; [exact N|].
  split; [exact (A S N)|]. split; [exact H|].
  apply (L H). intros line x Hin D.
  simpl in Hin.
  destruct Hin as [<-|[<-|[<-|[<-|[]]]]]; vm_compute in D; try discriminate.
  injection D as <-. reflexivity.
Defined.

(** C3, as stated, fails: [load_csv] reads a negative amount from a file
    and stores it, and [add] stores whatever record it is given. *)
Lemma load_csv_negative_amount :
  store_inv []
  /\ load_csv StdText.stod (fs_with ex_negative_text) "expenses.csv" [] = (true, [ex_negative])
  /\ ~ store_inv (snd (load_csv StdText.stod (fs_with ex_negative_text) "expenses.csv" []))
  /\ ~ store_inv (add ex_negative []).
Proof.
  split; [constructor|]. split; [reflexivity|].
  assert (N : ~ store_inv [ex_negative]).
  { intros H. inversion H as [|? ? H1 _]. discriminate H1. }
  split; exact N.
Qed.

(** ** Saving and loading back *)

Lemma contains_app (c : ascii) (s t : string) :
  contains c (s +:+ t) = contains c s || contains c t.
Proof.
  induction s as [|x s IH]; [reflexivity|].
  rewrite sapp_cons. simpl. rewrite IH, orb_assoc. reflexivity.
Qed.

Lemma contains_double_quotes (c : ascii) (s : string) :
  contains c (double_quotes s) = contains c s.
Proof.
  induction s as [|x s IH]; [reflexivity|]. cbn [double_quotes contains].
  destruct (Ascii.eqb x ch_quote) eqn:E; cbn [contains]; rewrite IH; [|reflexivity].
  apply eqb_ascii_true in E. subst x.
  destruct (Ascii.eqb ch_quote c); reflexivity.
Qed.

Lemma has_special_contains (s : string) :
  has_special s = contains ch_comma s || contains ch_quote s || contains ch_lf s.
Proof.
  induction s as [|x s IH]; [reflexivity|]. simpl. rewrite IH. unfold is_special.
  destruct (Ascii.eqb x ch_comma), (Ascii.eqb x ch_quote), (Ascii.eqb x ch_lf),
    (contains ch_comma s), (contains ch_quote s), (contains ch_lf s); reflexivity.
Qed.

Lemma contains_lf_escape (s : string) :
  contains ch_lf (csv_escape s) = contains ch_lf s.
Proof.
  rewrite csv_escape_spec. destruct (has_special s); [|reflexivity].
  unfold wrap_quotes. simpl. rewrite contains_app, contains_double_quotes. simpl.
  rewrite orb_false_r. reflexivity.
Qed.

Lemma contains_digit (c : ascii) (k : Z) :
  0 <= k <= 9 -> isdigit c = false -> Ascii.eqb (digit_char k) c = false.
Proof. intros H N. apply eqb_digit_other; [apply isdigit_digit_char, H|exact N]. Qed.

(** The text of a date holds digits and hyphens only. *)
Lemma contains_date (c : ascii) (yr mo dy : Z) :
  0 <= yr <= 9999 -> 0 <= mo <= 99 -> 0 <= dy <= 99 ->
  isdigit c = false -> Ascii.eqb ch_dash c = false ->
  contains c (dec4 yr +:+ "-" +:+ dec2 mo +:+ "-" +:+ dec2 dy) = false.
Proof.
  intros Hy Hm Hd N D. unfold dec4, dec2.
  change (contains c _) with
    (Ascii.eqb (digit_char (yr / 1000)) c || (Ascii.eqb (digit_char (yr / 100 mod 10)) c
     || (Ascii.eqb (digit_char (yr / 10 mod 10)) c || (Ascii.eqb (digit_char (yr mod 10)) c
     || (Ascii.eqb ch_dash c || (Ascii.eqb (digit_char (mo / 10)) c
     || (Ascii.eqb (digit_char (mo mod 10)) c || (Ascii.eqb ch_dash c
     || (Ascii.eqb (digit_char (dy / 10)) c || (Ascii.eqb (digit_char (dy mod 10)) c
     || false)))))))))).
  rewrite D, !contains_digit by (try exact N; dlia). reflexivity.
Qed.

Lemma back_date (yr mo dy : Z) :
  back (dec4 yr +:+ "-" +:+ dec2 mo +:+ "-" +:+ dec2 dy) = digit_char (dy mod 10).
Proof. reflexivity. Qed.

Lemma back_contains (c : ascii) (s : string) :
  size s <> 0 -> Ascii.eqb (back s) c = true -> contains c s = true.
Proof.
  induction s as [|x s IH]; [intros N; exfalso; apply N; reflexivity|].
  intros _ H. destruct s as [|x' s].
  - cbn [back] in H. cbn [contains]. rewrite H. reflexivity.
  - change (back (String x (String x' s))) with (back (String x' s)) in H.
    cbn [contains] in *. rewrite IH; [apply orb_true_r| |exact H].
    unfold size. simpl. lia.
Qed.

Lemma strip_eol_id (s : string) : ends_with_eol s = false -> strip_eol s = s.
Proof.
  unfold strip_eol, ends_with_eol. intros H.
  destruct (String.length s); simpl; [reflexivity|]. rewrite H. reflexivity.
Qed.

Lemma ends_with_eol_plain (s : string) :
  contains ch_cr s = false -> contains ch_lf s = false -> ends_with_eol s = false.
Proof.
  intros Hc Hl. unfold ends_with_eol.
  destruct (Z.eqb_spec (size s) 0) as [|N]; [reflexivity|]. simpl.
  apply orb_false_iff. split.
  - destruct (Ascii.eqb (back s) ch_cr) eqn:E; [|reflexivity].
    rewrite (back_contains _ _ N E) in Hc. discriminate.
  - destruct (Ascii.eqb (back s) ch_lf) eqn:E; [|reflexivity].
    rewrite (back_contains _ _ N E) in Hl. discriminate.
Qed.

Lemma ends_with_eol_escape (s : string) :
  field_ok s = true -> ends_with_eol (csv_escape s) = false.
Proof.
  unfold field_ok. intros H. apply andb_true_iff in H as [_ H].
  rewrite csv_escape_spec. destruct (has_special s).
  - unfold ends_with_eol. rewrite back_wrap.
    change (Ascii.eqb ch_quote ch_cr || Ascii.eqb ch_quote ch_lf) with false.
    apply andb_false_r.
  - simpl in H. apply negb_true_iff in H. exact H.
Qed.

Lemma split_plain (t rest : string) (cols : list string) (cur : string) (q : bool) :
  contains ch_comma t = false -> contains ch_quote t = false ->
  split_loop (t +:+ rest) cols cur q = split_loop rest cols (cur +:+ t) q.
Proof.
  revert cur. induction t as [|c t IH]; intros cur Hc Hq.
  - rewrite sapp_nil_l, sapp_nil_r. reflexivity.
  - simpl in Hc, Hq. apply orb_false_iff in Hc as [Hc Hc'].
    apply orb_false_iff in Hq as [Hq Hq'].
    rewrite sapp_cons. simpl. rewrite Hq, Hc. simpl.
    rewrite IH by assumption. unfold push_back. str_norm. reflexivity.
Qed.

Lemma split_comma (rest : string) (cols : list string) (cur : string) :
  split_loop ("," +:+ rest) cols cur false = split_loop rest (cols ++ [cur]) "" false.
Proof. reflexivity. Qed.

Lemma split_quoted_body (s rest : string) (cols : list string) (cur : string) :
  split_loop (double_quotes s +:+ rest) cols cur true
  = split_loop rest cols (cur +:+ double_quotes s) true.
Proof.
  revert cur. induction s as [|c s IH]; intros cur.
  - simpl. rewrite sapp_nil_l, sapp_nil_r. reflexivity.
  - simpl. destruct (Ascii.eqb c ch_quote) eqn:E.
    + rewrite !sapp_cons. simpl. rewrite IH. unfold push_back. str_norm. reflexivity.
    + rewrite sapp_cons. simpl. rewrite E, andb_false_r.
      rewrite IH. unfold push_back. str_norm. reflexivity.
Qed.

Lemma split_escaped (s rest : string) (cols : list string) (cur : string) :
  split_loop (csv_escape s +:+ rest) cols cur false
  = split_loop rest cols (cur +:+ csv_escape s) false.
Proof.
  rewrite csv_escape_spec. destruct (has_special s) eqn:H.
  - unfold wrap_quotes. rewrite sapp_cons. simpl.
    rewrite sapp_assoc, split_quoted_body. rewrite sapp_cons. simpl.
    unfold push_back. str_norm. reflexivity.
  - rewrite has_special_contains in H.
    apply orb_false_iff in H as [H _]. apply orb_false_iff in H as [Hc Hq].
    apply split_plain; assumption.
Qed.

Section RoundTrip.

Variable stod : string -> option float.
Variable put_double : float -> string.

Lemma save_text_rows (expenses : list Expense) (init : string) :
  fold_left (fun out e => out +:+ csv_row put_double e) expenses init
  = init +:+ rows put_double expenses.
Proof.
  revert init. induction expenses as [|e l IH]; intros init; simpl.
  - rewrite sapp_nil_r. reflexivity.
  - rewrite IH. unfold csv_row, row_line. str_norm. reflexivity.
Qed.

Lemma getlines_line (l rest cur : string) :
  contains ch_lf l = false ->
  getlines (l +:+ endl +:+ rest) cur = (cur +:+ l) :: getlines rest "".
Proof.
  revert cur. induction l as [|c l IH]; intros cur H.
  - rewrite sapp_nil_l, sapp_nil_r. reflexivity.
  - simpl in H. apply orb_false_iff in H as [H H'].
    rewrite sapp_cons. simpl. rewrite H, IH by exact H'.
    unfold push_back. str_norm. reflexivity.
Qed.

Lemma row_line_no_lf (e : Expense) :
  record_ok stod put_double e -> contains ch_lf (row_line put_double e) = false.
Proof.
  intros (V & Hy & P & _ & Fc & Fd). unfold row_line.
  rewrite to_string_valid by assumption.
  pose proof (valid_date_bounds _ V) as (Hy' & Hm & Hd).
  rewrite contains_app, contains_date by (try reflexivity; lia).
  rewrite !contains_app, !contains_lf_escape.
  unfold plain_text in P. apply andb_true_iff in P as [P _].
  apply andb_true_iff in P as [_ P]. apply negb_true_iff in P. rewrite P.
  unfold field_ok in Fc, Fd.
  apply andb_true_iff in Fc as [Fc _]. apply negb_true_iff in Fc. rewrite Fc.
  apply andb_true_iff in Fd as [Fd _]. apply negb_true_iff in Fd. rewrite Fd.
  reflexivity.
Qed.

Lemma getlines_rows (expenses : list Expense) :
  Forall (record_ok stod put_double) expenses ->
  getlines (rows put_double expenses) "" = map (row_line put_double) expenses.
Proof.
  induction 1 as [|e l H _ IH]; [reflexivity|].
  simpl. rewrite getlines_line by (apply row_line_no_lf, H).
  rewrite IH. reflexivity.
Qed.

Lemma split_row_line (e : Expense) :
  record_ok stod put_double e ->
  csv_split_line (row_line put_double e)
  = [to_string (date e); put_double (amount e);
     csv_escape (category e); csv_escape (description e)].
Proof.
  intros (V & Hy & P & _ & Fc & Fd).
  pose proof (valid_date_bounds _ V) as (Hy' & Hm & Hd).
  unfold plain_text in P. apply andb_true_iff in P as [P Pcr].
  apply andb_true_iff in P as [P Plf]. apply andb_true_iff in P as [Pc Pq].
  apply negb_true_iff in Pcr, Plf, Pc, Pq.
  unfold csv_split_line, row_line.
  assert (S : split_loop
                (to_string (date e) +:+ "," +:+ put_double (amount e) +:+ ","
                 +:+ csv_escape (category e) +:+ "," +:+ csv_escape (description e))
                [] "" false
              = [to_string (date e); put_double (amount e);
                 csv_escape (category e); csv_escape (description e)]).
  { rewrite split_plain, split_comma
      by (rewrite to_string_valid by assumption; apply contains_date; try reflexivity; lia).
    rewrite split_plain, split_comma by assumption.
    rewrite split_escaped, split_comma.
    rewrite <- (sapp_nil_r (csv_escape (description e))) at 1.
    rewrite split_escaped. simpl. rewrite !sapp_nil_l. reflexivity. }
  rewrite S. simpl.
  rewrite (strip_eol_id (to_string (date e))).
  2:{ rewrite to_string_valid by assumption. unfold ends_with_eol.
      rewrite back_date, !contains_digit by (try reflexivity; dlia).
      apply andb_false_r. }
  rewrite (strip_eol_id (put_double (amount e))) by (apply ends_with_eol_plain; assumption).
  rewrite !strip_eol_id by (apply ends_with_eol_escape; assumption).
  reflexivity.
Qed.

Lemma decode_row_line (e : Expense) :
  record_ok stod put_double e ->
  exists e', decode_line stod (row_line put_double e) = Some e'
             /\ same_record stod put_double e e'.
Proof.
  intros R. pose proof R as (V & Hy & _ & [a A] & _ & _).
  exists (mkExpense (date e) a (category e) (description e)). split.
  - unfold decode_line. rewrite (split_row_line e R). simpl.
    rewrite parse_to_string_valid by assumption. simpl. rewrite A. simpl.
    rewrite !csv_unescape_escape. reflexivity.
  - unfold same_record. simpl. split; [reflexivity|]. split; [exact A|].
    split; reflexivity.
Qed.

Lemma decode_rows (expenses : list Expense) :
  Forall (record_ok stod put_double) expenses ->
  Forall2 (same_record stod put_double) expenses
          (omap (decode_line stod) (map (row_line put_double) expenses)).
Proof.
  induction 1 as [|e l H _ IH]; [constructor|].
  destruct (decode_row_line e H) as (e' & D & S).
  cbn [map]. change (omap (decode_line stod) (row_line put_double e :: map (row_line put_double) l))
    with (match decode_line stod (row_line put_double e) with
          | Some x => x :: omap (decode_line stod) (map (row_line put_double) l)
          | None => omap (decode_line stod) (map (row_line put_double) l)
          end).
  rewrite D. constructor; assumption.
Qed.

(** C1 (amended). Take a store in which every record has a calendar-valid
    date with a year of at most 9999, an amount whose printed text holds
    no comma, quote, carriage return or newline and is read back by
    [std::stod], and a category and a description without a newline that
    do not end in a carriage return unless they hold a comma or a quote.
    Saving it to a path that can be written and loading from the same
    path both succeed, and the loaded store has the same number of
    records, in the same order, with the dates, categories and
    descriptions of the originals and, for each amount, the number
    [std::stod] reads from the printed text of the original. *)
Theorem save_load_roundtrip (fs : FileSystem) (path : string)
    (expenses before : list Expense) :
  writable fs path = true ->
  Forall (record_ok stod put_double) expenses ->
  fst (save_csv put_double fs path expenses) = true
  /\ exists loaded,
       load_csv stod (snd (save_csv put_double fs path expenses)) path before
       = (true, loaded)
       /\ length loaded = length expenses
       /\ Forall2 (same_record stod put_double) expenses loaded.
Proof.
  intros W R. unfold save_csv. rewrite W. simpl. split; [reflexivity|].
  exists (omap (decode_line stod) (map (row_line put_double) expenses)).
  pose proof (decode_rows expenses R) as F.
  split; [|split; [symmetry; eapply Forall2_length, F|exact F]].
  rewrite (load_csv_opened stod _ path
             (fold_left (fun out e => out +:+ csv_row put_double e) expenses
                        (header +:+ endl)))
    by (unfold write_file; simpl; apply lookup_insert_eq).
  f_equal. rewrite save_text_rows, sapp_assoc.
  rewrite getlines_line by reflexivity.
  rewrite getlines_rows by exact R.
  rewrite sapp_nil_l.
  change (omap (decode_line stod) (header :: map (row_line put_double) expenses))
    with (match decode_line stod header with
          | Some x => x :: omap (decode_line stod) (map (row_line put_double) expenses)
          | None => omap (decode_line stod) (map (row_line put_double) expenses)
          end).
  rewrite header_no_decode; [reflexivity|].
  rewrite <- (sapp_nil_r header) at 2. apply prefix_refl.
Qed.

End RoundTrip.

Lemma save_load_roundtrip_witness :
  writable fs_empty "expenses.csv" = true
  /\ Forall (record_ok StdText.stod StdText.put_double) [ex_food; ex_rent; ex_big]
  /\ exists loaded,
       load_csv StdText.stod
         (snd (save_csv StdText.put_double fs_empty "expenses.csv" [ex_food; ex_rent; ex_big]))
         "expenses.csv" [ex_cr]
       = (true, loaded)
       /\ length loaded = 3%nat
       /\ Forall2 (same_record StdText.stod StdText.put_double)
                  [ex_food; ex_rent; ex_big] loaded.
Proof.
  assert (W : writable fs_empty "expenses.csv" = true) by reflexivity.
  assert (R : Forall (record_ok StdText.stod StdText.put_double) [ex_food; ex_rent; ex_big]).
  { repeat constructor; try (vm_compute; congruence); eexists; vm_compute; reflexivity. }
  split; [exact W|]. split; [exact R|].
  exact (proj2 (save_load_roundtrip StdText.stod StdText.put_double fs_empty "expenses.csv"
                  [ex_food; ex_rent; ex_big] [ex_cr] W R)).
Defined.

(** What the file holds after saving, and what loading gives back: the
    amount 1234567 is printed with six significant digits. *)
Example save_load_example :
  files (snd (save_csv StdText.put_double fs_empty "expenses.csv" [ex_rent; ex_big]))
    !! "expenses.csv"
  = Some ("date,amount,category,description" +:+ endl
          +:+ "2024-02-01,1200," +:+ csv_escape "Rent, Utilities" +:+ ","
          +:+ csv_escape (description ex_rent) +:+ endl
          +:+ "2024-02-29,1.23457e+06,Travel," +:+ endl)
  /\ save_then_load [ex_rent; ex_big]
     = (true, [ex_rent; mkExpense (mkDate 2024 2 29) 1234570 "Travel" ""]).
Proof. split; reflexivity. Qed.

(** C1, as stated, fails.  A description with a newline is written inside
    quotes over two lines, and the line reader gives back its first half
    with the opening quote.  A description that ends in a carriage return
    comes back without it.  A record of the year 10000 does not come back
    at all. *)
Lemma save_load_not_identity :
  save_then_load [ex_newline]
    = (true, [mkExpense (mkDate 2024 1 1) 5 "Food" (String ch_quote "a")])
  /\ description ex_newline <> String ch_quote "a"
  /\ save_then_load [ex_cr] = (true, [mkExpense (mkDate 2024 1 1) 5 "Food" "abc"])
  /\ description ex_cr <> "abc"
  /\ valid_date (date ex_year) = true
  /\ save_then_load [ex_year] = (true, []).
Proof. repeat split; try reflexivity; discriminate. Qed.

(** * Further properties of the program *)

(** ** Dates: what [parse_date] returns, and the order *)

Lemma digits_acc_bound (s : string) (acc : Z) :
  0 <= acc -> acc <= digits_acc s acc < (acc + 1) * 10 ^ Z.of_nat (String.length s).
Proof.
  revert acc. induction s as [|c s IH]; intros acc H.
  - simpl. lia.
  - cbn [digits_acc String.length]. rewrite Nat2Z.inj_succ, Z.pow_succ_r by lia.
    assert (P : 0 < 10 ^ Z.of_nat (String.length s)) by (apply Z.pow_pos_nonneg; lia).
    destruct (isdigit c) eqn:D.
    + pose proof (digit_val_bounds c D) as B.
      specialize (IH (acc * 10 + digit_val c) ltac:(lia)). nia.
    + nia.
Qed.

Lemma skip_space_length (s : string) :
  (String.length (skip_space s) <= String.length s)%nat.
Proof.
  induction s as [|c s IH]; simpl; [lia|].
  destruct (isspace c); simpl; lia.
Qed.

(** What [stoi] reads from a text of [n] characters is below [10^n]. *)
Lemma stoi_bound (s : string) (v : Z) :
  stoi s = Some v -> v < 10 ^ Z.of_nat (String.length s).
Proof.
  unfold stoi. pose proof (skip_space_length s) as L.
  assert (B : forall (neg : bool) (t : string),
            (String.length t <= String.length s)%nat ->
            (if starts_with_digit t
             then let v0 := digits_acc t 0 in
                  let r := if neg then - v0 else v0 in
                  if (INT_MIN <=? r) && (r <=? INT_MAX) then Some r else None
             else None) = Some v ->
            v < 10 ^ Z.of_nat (String.length s)).
  { intros neg t Lt H. destruct (starts_with_digit t); [|discriminate].
    cbv zeta in H. pose proof (digits_acc_bound t 0 ltac:(lia)) as D.
    assert (M : 10 ^ Z.of_nat (String.length t) <= 10 ^ Z.of_nat (String.length s))
      by (apply Z.pow_le_mono_r; lia).
    destruct neg; destruct (_ && _); try discriminate; injection H as <-; lia. }
  destruct (skip_space s) as [|c r] eqn:E.
  - apply (B false ""). simpl. lia.
  - destruct (Ascii.eqb c ch_dash).
    + apply (B true r). simpl in L. lia.
    + destruct (Ascii.eqb c ch_plus).
      * apply (B false r). simpl in L. lia.
      * apply (B false (String c r)). exact L.
Qed.

Lemma substring_length_le (n k : nat) (s : string) :
  (String.length (String.substring n k s) <= k)%nat.
Proof.
  revert n k. induction s as [|c s IH]; intros [|n] [|k]; simpl; try lia.
  - specialize (IH 0%nat k). lia.
  - apply IH.
  - apply IH.
Qed.

Lemma parse_date_valid (s : string) (dt : Date) :
  parse_date s = Some dt -> size s = 10 /\ valid_date dt = true /\ y dt <= 9999.
Proof.
  unfold parse_date.
  destruct (Z.eqb_spec (size s) 10) as [L|]; [|discriminate]. simpl.
  destruct (negb _ || negb _); [discriminate|].
  destruct (stoi (substr s 0 4)) as [yv|] eqn:Y; [|discriminate].
  destruct (stoi (substr s 5 2)) as [mv|]; [|discriminate].
  destruct (stoi (substr s 8 2)) as [dv|]; [|discriminate].
  destruct (valid_date (mkDate yv mv dv)) eqn:V; [|discriminate].
  intros H. injection H as <-. split; [exact L|]. split; [exact V|].
  simpl. apply stoi_bound in Y.
  pose proof (substring_length_le 0 4 s) as B. unfold substr in Y.
  assert (M : 10 ^ Z.of_nat (String.length (String.substring 0 4 s)) <= 10 ^ 4)
    by (apply Z.pow_le_mono_r; lia).
  lia.
Qed.

(** X1. A date [parse_date] returns is a real calendar day: its text had
    ten characters, and the date is calendar-valid with a year between
    1900 and 9999. *)
Theorem parse_date_sound (s : string) (dt : Date) :
  parse_date s = Some dt ->
  size s = 10 /\ calendar_valid (y dt) (m dt) (d dt) /\ y dt <= 9999.
Proof.
  intros H. apply parse_date_valid in H as (L & V & Y).
  split; [exact L|]. split; [|exact Y].
  destruct dt as [yr mo dy]. apply valid_date_calendar, V.
Qed.

Lemma parse_date_sound_witness :
  parse_date "2024- 7-+4" = Some (mkDate 2024 7 4)
  /\ size "2024- 7-+4" = 10 /\ calendar_valid 2024 7 4 /\ 2024 <= 9999.
Proof.
  assert (H : parse_date "2024- 7-+4" = Some (mkDate 2024 7 4)) by reflexivity.
  split; [exact H|]. exact (parse_date_sound "2024- 7-+4" (mkDate 2024 7 4) H).
Defined.

Lemma digit_char_digit_val (c : ascii) : isdigit c = true -> digit_char (digit_val c) = c.
Proof.
  intros D. pose proof (digit_val_bounds c D) as B. unfold digit_char, digit_val in *.
  replace (48 + (code c - 48)) with (code c) by lia.
  unfold code. rewrite N2Z.id. apply ascii_N_embedding.
Qed.

Lemma matches_pattern_dec (yr mo dy : Z) :
  0 <= yr <= 9999 -> 0 <= mo <= 99 -> 0 <= dy <= 99 ->
  matches_pattern (dec4 yr +:+ "-" +:+ dec2 mo +:+ "-" +:+ dec2 dy) = true.
Proof.
  intros Hy Hm Hd. unfold matches_pattern, dec4, dec2, at_, size. simpl.
  rewrite !isdigit_digit_char by dlia. reflexivity.
Qed.

(** The text of the pattern YYYY-MM-DD is the text of the date it spells. *)
Lemma pattern_text (s : string) :
  matches_pattern s = true ->
  s = dec4 (four_digits s 0) +:+ "-" +:+ dec2 (two_digits s 5) +:+ "-"
      +:+ dec2 (two_digits s 8).
Proof.
  unfold matches_pattern. intros H.
  repeat (apply andb_true_iff in H as [H ?]).
  apply Z.eqb_eq in H. unfold size in H.
  do 10 (destruct s as [|? s]; [simpl in H; lia|]).
  destruct s; [|simpl in H; lia].
  unfold at_ in *. simpl in * |-.
  repeat match goal with
         | E : Ascii.eqb ?c ch_dash = true |- _ => apply eqb_ascii_true in E; subst c
         end.
  repeat match goal with
         | E : isdigit ?c = true |- _ =>
             pose proof (digit_val_bounds c E); pose proof (digit_char_digit_val c E);
             clear E
         end.
  unfold dec4, dec2, four_digits, two_digits, at_. simpl.
  repeat match goal with
         | E : digit_char (digit_val ?c) = ?c |- _ => rewrite <- E at 1; clear E
         end.
  rewrite !sapp_cons, !sapp_nil_l.
  repeat f_equal; dlia.
Qed.

(** X2. The text [to_string] gives for a date that [parse_date] returned
    has the pattern YYYY-MM-DD and parses to the same date; and when the
    parsed text had that pattern, [to_string] gives the very text back. *)
Theorem parse_date_canonical (s : string) (dt : Date) :
  parse_date s = Some dt ->
  matches_pattern (to_string dt) = true
  /\ parse_date (to_string dt) = Some dt
  /\ (matches_pattern s = true -> to_string dt = s).
Proof.
  intros H. pose proof (parse_date_valid s dt H) as (_ & V & Y).
  pose proof (valid_date_bounds dt V) as (Hy & Hm & Hd).
  split; [|split].
  - rewrite to_string_valid by assumption. apply matches_pattern_dec; lia.
  - apply parse_to_string_valid; assumption.
  - intros P. rewrite (parse_date_pattern s P) in H.
    destruct (valid_date _); [|discriminate]. injection H as <-.
    rewrite to_string_valid by assumption. simpl. symmetry. apply pattern_text, P.
Qed.

Lemma parse_date_canonical_witness :
  parse_date "2024- 7-+4" = Some (mkDate 2024 7 4)
  /\ to_string (mkDate 2024 7 4) = "2024-07-04"
  /\ parse_date (to_string (mkDate 2024 7 4)) = Some (mkDate 2024 7 4)
  /\ matches_pattern "2024-07-04" = true
  /\ parse_date "2024-07-04" = Some (mkDate 2024 7 4).
Proof.
  assert (H : parse_date "2024- 7-+4" = Some (mkDate 2024 7 4)) by reflexivity.
  assert (H' : parse_date "2024-07-04" = Some (mkDate 2024 7 4)) by reflexivity.
  split; [exact H|]. split; [reflexivity|].
  split; [exact (proj1 (proj2 (parse_date_canonical _ _ H)))|].
  split; [reflexivity|exact H'].
Defined.

Lemma date_le_spec (a b : Date) :
  date_le a b = true
  <-> y a < y b \/ (y a = y b /\ (m a < m b \/ (m a = m b /\ d a <= d b))).
Proof.
  unfold date_le.
  rewrite orb_true_iff, andb_true_iff, orb_true_iff, andb_true_iff.
  rewrite !Z.ltb_lt, !Z.eqb_eq, Z.leb_le. reflexivity.
Qed.

Lemma date_le_trans (a b c : Date) :
  date_le a b = true -> date_le b c = true -> date_le a c = true.
Proof. rewrite !date_le_spec. lia. Qed.

(** X3. [date_le] is a total order on dates: reflexive, transitive,
    antisymmetric, and any two dates are comparable. *)
Theorem date_le_total_order (a b c : Date) :
  date_le a a = true
  /\ (date_le a b = true -> date_le b c = true -> date_le a c = true)
  /\ (date_le a b = true -> date_le b a = true -> a = b)
  /\ (date_le a b = true \/ date_le b a = true).
Proof.
  split; [apply date_le_spec; lia|]. split; [apply date_le_trans|]. split.
  - rewrite !date_le_spec. intros H1 H2.
    destruct a as [ya ma da], b as [yb mb db]. simpl in *.
    assert (ya = yb /\ ma = mb /\ da = db) as (-> & -> & ->) by lia. reflexivity.
  - rewrite !date_le_spec. lia.
Qed.

Lemma date_le_total_order_witness :
  date_le (mkDate 2023 12 31) (mkDate 2024 1 1) = true
  /\ date_le (mkDate 2024 1 1) (mkDate 2024 1 15) = true
  /\ date_le (mkDate 2023 12 31) (mkDate 2024 1 15) = true.
Proof.
  assert (H1 : date_le (mkDate 2023 12 31) (mkDate 2024 1 1) = true) by reflexivity.
  assert (H2 : date_le (mkDate 2024 1 1) (mkDate 2024 1 15) = true) by reflexivity.
  split; [exact H1|]. split; [exact H2|].
  exact (proj1 (proj2 (date_le_total_order (mkDate 2023 12 31) (mkDate 2024 1 1)
                         (mkDate 2024 1 15))) H1 H2).
Defined.

Lemma filter_by_date_range_filter (from to : Date) (expenses : list Expense) :
  filter_by_date_range from to expenses = List.filter (in_range from to) expenses.
Proof. unfold filter_by_date_range. rewrite filter_loop. reflexivity. Qed.

(** X4. A range whose ends are the wrong way round holds no record:
    [filter_by_date_range] returns the empty list, whatever the store. *)
Theorem filter_by_date_range_reversed (from to : Date) (expenses : list Expense) :
  date_le from to = false -> filter_by_date_range from to expenses = [].
Proof.
  intros H. rewrite filter_by_date_range_filter.
  induction expenses as [|e l IH]; [reflexivity|]. simpl.
  destruct (in_range from to e) eqn:R; [|exact IH].
  unfold in_range in R. apply andb_true_iff in R as [R1 R2].
  rewrite (date_le_trans _ _ _ R1 R2) in H. discriminate.
Qed.

Lemma filter_by_date_range_reversed_witness :
  date_le (mkDate 2024 2 1) (mkDate 2024 1 1) = false
  /\ filter_by_date_range (mkDate 2024 2 1) (mkDate 2024 1 1) [ex_food; ex_rent; ex_big] = [].
Proof.
  assert (H : date_le (mkDate 2024 2 1) (mkDate 2024 1 1) = false) by reflexivity.
  split; [exact H|].
  exact (filter_by_date_range_reversed _ _ [ex_food; ex_rent; ex_big] H).
Defined.

(** X5. [valid_date] accepts a date exactly when the year is at least 1900,
    the month is between 1 and 12 and the day is between 1 and the length
    of the month, February having 29 days in the years [is_leap] accepts:
    those divisible by 4 and not by 100, or divisible by 400. *)
Theorem valid_date_decides_calendar (yr mo dy : Z) :
  is_leap yr = leap_year yr
  /\ (valid_date (mkDate yr mo dy) = true <-> calendar_valid yr mo dy).
Proof. split; [apply is_leap_leap_year|apply valid_date_calendar]. Qed.

(** ** Text matching and the queries by text *)

Lemma code_range (c : ascii) : 0 <= code c < 256.
Proof.
  unfold code. pose proof (N_ascii_bounded c) as B. lia.
Qed.

Lemma tolower_idem (c : ascii) : tolower (tolower c) = tolower c.
Proof.
  unfold tolower at 2 3.
  destruct ((65 <=? code c) && (code c <=? 90)) eqn:E; [|unfold tolower; rewrite E; reflexivity].
  apply andb_true_iff in E as [E1 E2]. apply Z.leb_le in E1, E2.
  unfold tolower.
  assert (C : code (ascii_of_N (Z.to_N (code c + 32))) = code c + 32).
  { unfold code at 1. rewrite N_ascii_embedding by lia. lia. }
  rewrite C. rewrite (proj2 (Z.leb_gt (code c + 32) 90)) by lia.
  rewrite andb_false_r. reflexivity.
Qed.

Lemma to_lower_idem (s : string) : to_lower (to_lower s) = to_lower s.
Proof.
  induction s as [|c s IH]; [reflexivity|].
  cbn [to_lower]. rewrite tolower_idem, IH. reflexivity.
Qed.

Lemma to_lower_length (s : string) : String.length (to_lower s) = String.length s.
Proof. induction s as [|c s IH]; [reflexivity|]. simpl. rewrite IH. reflexivity. Qed.

Lemma to_lower_app (s t : string) : to_lower (s +:+ t) = to_lower s +:+ to_lower t.
Proof.
  induction s as [|c s IH]; [reflexivity|].
  rewrite sapp_cons. cbn [to_lower]. rewrite IH, sapp_cons. reflexivity.
Qed.

(** X6. [to_lower] keeps the length of a text and changes nothing in a
    text it has produced; [iequals] is an equivalence of texts, and every
    text is equivalent to its lowercase form. *)
Theorem iequals_equivalence (a b c : string) :
  String.length (to_lower a) = String.length a
  /\ to_lower (to_lower a) = to_lower a
  /\ iequals a a = true
  /\ iequals a (to_lower a) = true
  /\ iequals a b = iequals b a
  /\ (iequals a b = true -> iequals b c = true -> iequals a c = true).
Proof.
  unfold iequals.
  split; [apply to_lower_length|]. split; [apply to_lower_idem|].
  split; [apply String.eqb_refl|].
  split; [rewrite to_lower_idem; apply String.eqb_refl|].
  split; [apply String.eqb_sym|].
  rewrite !String.eqb_eq. congruence.
Qed.

Lemma iequals_equivalence_witness :
  iequals "Food" "FOOD" = true /\ iequals "FOOD" "food" = true
  /\ iequals "Food" "food" = true.
Proof.
  assert (H1 : iequals "Food" "FOOD" = true) by reflexivity.
  assert (H2 : iequals "FOOD" "food" = true) by reflexivity.
  split; [exact H1|]. split; [exact H2|].
  destruct (iequals_equivalence "Food" "FOOD" "food") as (_ & _ & _ & _ & _ & T).
  exact (T H1 H2).
Defined.

Lemma prefix_iff (a b : string) :
  String.prefix a b = true <-> exists r, b = a +:+ r.
Proof.
  split; [apply prefix_app|]. intros [r ->]. apply prefix_refl.
Qed.

(** [find] succeeds exactly when the text occurs somewhere. *)
Lemma find_occurs (h n : string) (pos : nat) :
  (exists i, find h n pos = Some i) <-> exists pre post, h = pre +:+ n +:+ post.
Proof.
  revert pos. induction h as [|c h IH]; intros pos.
  - cbn [find]. destruct (String.prefix n "") eqn:P.
    + split; [|intros _; eexists; reflexivity].
      intros _. apply prefix_iff in P as [r ->]. exists "", r. reflexivity.
    + split; [intros [i H]; discriminate|].
      intros (pre & post & E). destruct pre; [|discriminate].
      rewrite sapp_nil_l in E. rewrite (proj2 (prefix_iff n "")) in P; [discriminate|].
      exists post. exact E.
  - cbn [find]. destruct (String.prefix n (String c h)) eqn:P.
    + split; [|intros _; eexists; reflexivity].
      intros _. apply prefix_iff in P as [r ->]. exists "", r. reflexivity.
    + rewrite IH. split.
      * intros (pre & post & ->). exists (String c pre), post. reflexivity.
      * intros (pre & post & E). destruct pre as [|c' pre].
        -- rewrite sapp_nil_l in E.
           rewrite (proj2 (prefix_iff n (String c h))) in P; [discriminate|].
           exists post. exact E.
        -- rewrite sapp_cons in E. injection E as _ ->. exists pre, post. reflexivity.
Qed.

Lemma icontains_occurs (hay needle : string) :
  icontains hay needle = true
  <-> exists pre post, to_lower hay = pre +:+ to_lower needle +:+ post.
Proof.
  unfold icontains. cbv zeta. rewrite <- (find_occurs _ _ 0).
  destruct (find (to_lower hay) (to_lower needle) 0) as [i|].
  - split; [intros _; exists i; reflexivity|reflexivity].
  - split; [discriminate|intros [i H]; discriminate].
Qed.

Lemma icontains_empty (hay : string) : icontains hay "" = true.
Proof. apply icontains_occurs. exists "", (to_lower hay). reflexivity. Qed.

Lemma iequals_icontains (hay needle : string) :
  iequals hay needle = true -> icontains hay needle = true.
Proof.
  unfold iequals. rewrite String.eqb_eq. intros E.
  apply icontains_occurs. exists "", "". rewrite sapp_nil_l, sapp_nil_r. exact E.
Qed.

(** X7. [icontains hay needle] holds exactly when the lowercase form of
    the needle occurs somewhere in the lowercase form of the hay.  So the
    empty needle is found in every text, every text is found in itself and
    in any text around it, and texts equal up to case contain each other. *)
Theorem icontains_spec (hay needle pre post : string) :
  (icontains hay needle = true
   <-> exists p q, to_lower hay = p +:+ to_lower needle +:+ q)
  /\ icontains hay "" = true
  /\ icontains (pre +:+ needle +:+ post) needle = true
  /\ (iequals hay needle = true -> icontains hay needle = true).
Proof.
  split; [apply icontains_occurs|]. split; [|split].
  - apply icontains_empty.
  - apply icontains_occurs. exists (to_lower pre), (to_lower post).
    rewrite !to_lower_app. reflexivity.
  - apply iequals_icontains.
Qed.

Lemma icontains_spec_witness :
  iequals "Rent" "RENT" = true /\ icontains "Rent" "RENT" = true
  /\ icontains ("Monthly " +:+ "rent" +:+ ", flat") "rent" = true.
Proof.
  assert (H : iequals "Rent" "RENT" = true) by reflexivity.
  split; [exact H|].
  destruct (icontains_spec "Rent" "RENT" "" "") as (_ & _ & _ & I).
  split; [exact (I H)|].
  exact (proj1 (proj2 (proj2 (icontains_spec "" "rent" "Monthly " ", flat")))).
Defined.

Lemma filter_by_category_filter (cat : string) (expenses : list Expense) :
  filter_by_category cat expenses
  = List.filter (fun e => iequals (category e) cat) expenses.
Proof. unfold filter_by_category. rewrite filter_loop. reflexivity. Qed.

Lemma search_filter (q : string) (expenses : list Expense) :
  search q expenses
  = List.filter (fun e => icontains (category e) q || icontains (description e) q)
                expenses.
Proof. unfold search. rewrite filter_loop. reflexivity. Qed.



(** X9. The summary agrees with the category filter: the entry of
    [totals_by_category] under the lowercase form of [cat] is the [total]
    of [filter_by_category cat], and there is no such entry exactly when
    that filter finds no record. *)
Theorem totals_entry_is_category_total (cat : string) (expenses : list Expense) :
  map_find (to_lower cat) (totals_by_category expenses)
  = (match filter_by_category cat expenses with
     | [] => None
     | found => Some (total found)
     end).
Proof.
  destruct (totals_invariant expenses) as [_ F]. rewrite F.
  rewrite filter_by_category_filter. unfold totals_spec, sum_for, total.
  change (has_key (to_lower cat)) with (fun e => iequals (category e) cat).
  induction expenses as [|e l IH]; [reflexivity|]. simpl.
  destruct (iequals (category e) cat); [reflexivity|].
  simpl. apply IH. destruct (totals_invariant l) as [_ F']. exact F'.
Qed.

Example totals_entry_example :
  map_find "food" (totals_by_category [ex_food; ex_rent; ex_big])
  = Some (total (filter_by_category "FOOD" [ex_food; ex_rent; ex_big]))
  /\ map_find "none" (totals_by_category [ex_food; ex_rent; ex_big]) = None.
Proof. split; reflexivity. Qed.



Lemma map_add_length (k : string) (a : float) (mp : list (string * float)) :
  (length (map_add k a mp) <= S (length mp))%nat.
Proof.
  induction mp as [|[k1 v1] mp IH]; simpl; [lia|].
  destruct (String.compare k k1); simpl; lia.
Qed.

(** X11. The keys of [totals_by_category] are lowercase forms of categories
    of the given records, so [to_lower] leaves them as they are, and there
    are never more entries than records. *)
Theorem totals_keys_lowercase (l : list Expense) :
  (forall k v, In (k, v) (totals_by_category l) ->
     to_lower k = k /\ exists e, In e l /\ to_lower (category e) = k)
  /\ (length (totals_by_category l) <= length l)%nat.
Proof.
  split.
  - destruct (totals_invariant l) as [S F]. intros k v H.
    apply (map_find_in k v _ S) in H. rewrite F in H. unfold totals_spec in H.
    destruct (existsb (has_key k) l) eqn:X; [|discriminate].
    apply existsb_exists in X as (e & Hin & K). unfold has_key in K.
    apply String.eqb_eq in K. subst k.
    split; [apply to_lower_idem|]. exists e. split; [exact Hin|reflexivity].
  - unfold totals_by_category. induction l as [|e l IH] using rev_ind; [simpl; lia|].
    rewrite fold_left_app, length_app. simpl.
    pose proof (map_add_length (to_lower (category e)) (amount e)
                  (fold_left (fun mp e0 => map_add (to_lower (category e0)) (amount e0) mp)
                             l [])).
    lia.
Qed.

Lemma totals_keys_lowercase_witness :
  In ("food", 42.5%float) (totals_by_category [ex_food; ex_rent])
  /\ to_lower "food" = "food".
Proof.
  assert (H : In ("food", 42.5%float) (totals_by_category [ex_food; ex_rent]))
    by (left; reflexivity).
  split; [exact H|].
  exact (proj1 (proj1 (totals_keys_lowercase [ex_food; ex_rent]) "food" 42.5%float H)).
Defined.

(** ** Splitting a line *)

(** Reading a text [a] takes the loop of [csv_split_line] to a state from
    which it goes on with what follows [a]. *)
Lemma split_loop_app (a : string) (cols : list string) (cur : string) (q : bool) :
  exists cs x,
    split_loop a cols cur q = cs ++ [x]
    /\ forall rest, split_loop (a +:+ rest) cols cur q
                    = split_loop rest cs x (in_q_after a q).
Proof.
  revert cols cur q. induction a as [|c a IH]; intros cols cur q.
  - exists cols, cur. split; [reflexivity|]. intros rest. reflexivity.
  - cbn [split_loop in_q_after].
    destruct (Ascii.eqb c ch_quote) eqn:Q.
    + destruct (IH cols (push_back cur c) (negb q)) as (cs & x & E & R).
      exists cs, x. split; [exact E|]. intros rest.
      rewrite sapp_cons. cbn [split_loop]. rewrite Q. apply R.
    + destruct (Ascii.eqb c ch_comma && negb q) eqn:C.
      * destruct (IH (cols ++ [cur]) "" q) as (cs & x & E & R).
        exists cs, x. split; [exact E|]. intros rest.
        rewrite sapp_cons. cbn [split_loop]. rewrite Q, C. apply R.
      * destruct (IH cols (push_back cur c) q) as (cs & x & E & R).
        exists cs, x. split; [exact E|]. intros rest.
        rewrite sapp_cons. cbn [split_loop]. rewrite Q, C. apply R.
Qed.

Lemma pop_back_length (s : string) :
  String.length (pop_back s) = pred (String.length s).
Proof.
  induction s as [|c s IH]; [reflexivity|].
  destruct s as [|c' s]; [reflexivity|].
  change (pop_back (String c (String c' s))) with (String c (pop_back (String c' s))).
  change (String.length (String c (pop_back (String c' s))))
    with (S (String.length (pop_back (String c' s)))).
  rewrite IH. reflexivity.
Qed.

Lemma pop_back_push_back (s : string) (c : ascii) : pop_back (push_back s c) = s.
Proof.
  unfold push_back. induction s as [|c' s IH]; [reflexivity|].
  rewrite sapp_cons.
  destruct (s +:+ String c "") as [|c2 r] eqn:E; [destruct s; discriminate|].
  change (pop_back (String c' (String c2 r))) with (String c' (pop_back (String c2 r))).
  rewrite IH. reflexivity.
Qed.

Lemma strip_loop_done (fuel : nat) (s : string) :
  (String.length s <= fuel)%nat -> ends_with_eol (strip_loop fuel s) = false.
Proof.
  revert s. induction fuel as [|f IH]; intros s L.
  - destruct s; [reflexivity|simpl in L; lia].
  - cbn [strip_loop]. fold (ends_with_eol s).
    destruct (ends_with_eol s) eqn:E; [|exact E].
    apply IH. rewrite pop_back_length. lia.
Qed.

Lemma strip_eol_push_eol (s : string) (c : ascii) :
  Ascii.eqb c ch_cr || Ascii.eqb c ch_lf = true ->
  strip_eol (push_back s c) = strip_eol s.
Proof.
  intros H. unfold strip_eol at 1.
  replace (String.length (push_back s c)) with (S (String.length s))
    by (unfold push_back; rewrite slength_app; simpl; lia).
  cbn [strip_loop]. rewrite back_push_back, H, pop_back_push_back.
  replace (size (push_back s c) =? 0) with false; [reflexivity|].
  symmetry. apply Z.eqb_neq. unfold size, push_back. rewrite slength_app. simpl. lia.
Qed.

Lemma split_loop_count (line : string) (cols : list string) (cur : string) :
  contains ch_quote line = false ->
  length (split_loop line cols cur false)
  = (length cols + 1 + count_char ch_comma line)%nat.
Proof.
  revert cols cur. induction line as [|c line IH]; intros cols cur H.
  - simpl. rewrite length_app. simpl. lia.
  - cbn [contains] in H. apply orb_false_iff in H as [Q H].
    cbn [split_loop count_char]. rewrite Q.
    destruct (Ascii.eqb c ch_comma); simpl.
    + rewrite IH by exact H. rewrite length_app. simpl. lia.
    + rewrite IH by exact H. lia.
Qed.

(** X12. [csv_split_line] always returns at least one field, also for the
    empty line; no field it returns ends in a carriage return or newline;
    and a line without quotes gives one field more than it has commas. *)
Theorem csv_split_line_shape (line : string) :
  (1 <= length (csv_split_line line))%nat
  /\ Forall (fun col => ends_with_eol col = false) (csv_split_line line)
  /\ (contains ch_quote line = false ->
      length (csv_split_line line) = S (count_char ch_comma line)).
Proof.
  unfold csv_split_line. split; [|split].
  - destruct (split_loop_app line [] "" false) as (cs & x & E & _).
    rewrite E, length_map, length_app. simpl. lia.
  - apply List.Forall_forall. intros col H. apply in_map_iff in H as (raw & <- & _).
    apply strip_loop_done. lia.
  - intros H. rewrite length_map, split_loop_count by exact H. simpl. lia.
Qed.

Lemma csv_split_line_shape_witness :
  contains ch_quote "a,b,,d" = false
  /\ length (csv_split_line "a,b,,d") = 4%nat
  /\ csv_split_line "" = [""].
Proof.
  assert (H : contains ch_quote "a,b,,d" = false) by reflexivity.
  split; [exact H|]. split; [|reflexivity].
  exact (proj2 (proj2 (csv_split_line_shape "a,b,,d")) H).
Defined.

Lemma csv_split_line_eol (line : string) (c : ascii) :
  Ascii.eqb c ch_cr || Ascii.eqb c ch_lf = true ->
  csv_split_line (line +:+ String c "") = csv_split_line line.
Proof.
  intros H. unfold csv_split_line.
  destruct (split_loop_app line [] "" false) as (cs & x & E & R).
  rewrite R, E.
  assert (S : split_loop (String c "") cs x (in_q_after line false)
              = cs ++ [push_back x c]).
  { cbn [split_loop].
    destruct (Ascii.eqb c ch_quote) eqn:Q.
    - apply eqb_ascii_true in Q. subst c. discriminate H.
    - destruct (Ascii.eqb c ch_comma) eqn:C; [|reflexivity].
      apply eqb_ascii_true in C. subst c. discriminate H. }
  rewrite S, !map_app. simpl. rewrite strip_eol_push_eol by exact H. reflexivity.
Qed.

(** X13. A carriage return, a newline or both at the end of a line make no
    difference to its fields, and so none to the record the line decodes
    to: lines of a file with Windows line ends read like the others. *)
Theorem line_end_ignored (stod : string -> option float) (line : string) :
  csv_split_line (line +:+ String ch_cr "") = csv_split_line line
  /\ csv_split_line (line +:+ String ch_lf "") = csv_split_line line
  /\ csv_split_line (line +:+ crlf) = csv_split_line line
  /\ decode_line stod (line +:+ String ch_cr "") = decode_line stod line.
Proof.
  assert (C : csv_split_line (line +:+ String ch_cr "") = csv_split_line line)
    by (apply csv_split_line_eol; reflexivity).
  split; [exact C|]. split; [apply csv_split_line_eol; reflexivity|]. split.
  - unfold crlf.
    change (String ch_cr (String ch_lf "")) with (String ch_cr "" +:+ String ch_lf "").
    rewrite <- sapp_assoc, csv_split_line_eol by reflexivity. exact C.
  - unfold decode_line. rewrite C. reflexivity.
Qed.

(** X14. When a line does not end inside a quoted region, the fields of
    the line followed by a comma and more text are the fields of the line
    followed by the fields of that text.  So a line of four or more fields
    decodes to the same record whatever further fields follow. *)
Theorem extra_fields_ignored (stod : string -> option float) (line extra : string) :
  in_q_after line false = false ->
  csv_split_line (line +:+ "," +:+ extra) = csv_split_line line ++ csv_split_line extra
  /\ ((4 <= length (csv_split_line line))%nat ->
      decode_line stod (line +:+ "," +:+ extra) = decode_line stod line).
Proof.
  intros B.
  assert (S : csv_split_line (line +:+ "," +:+ extra)
              = csv_split_line line ++ csv_split_line extra).
  { unfold csv_split_line.
    destruct (split_loop_app line [] "" false) as (cs & x & E & R).
    rewrite R, E, B, split_comma, split_loop_cols, map_app. reflexivity. }
  split; [exact S|]. intros L. unfold decode_line. rewrite S.
  rewrite length_app. rewrite (proj2 (Nat.leb_le 4 _)) by lia.
  rewrite (proj2 (Nat.leb_le 4 _)) by exact L.
  rewrite !app_nth1 by lia. reflexivity.
Qed.

Lemma extra_fields_ignored_witness :
  in_q_after "2024-01-15,42.5,Food,Groceries" false = false
  /\ (4 <= length (csv_split_line "2024-01-15,42.5,Food,Groceries"))%nat
  /\ decode_line StdText.stod ("2024-01-15,42.5,Food,Groceries" +:+ "," +:+ "more,fields")
     = Some ex_food.
Proof.
  assert (B : in_q_after "2024-01-15,42.5,Food,Groceries" false = false) by reflexivity.
  assert (L : (4 <= length (csv_split_line "2024-01-15,42.5,Food,Groceries"))%nat)
    by (vm_compute; lia).
  split; [exact B|]. split; [exact L|].
  rewrite (proj2 (extra_fields_ignored StdText.stod _ "more,fields" B) L). reflexivity.
Defined.

Lemma ends_with_eol_escaped (s : string) :
  strip_safe s = true -> ends_with_eol (csv_escape s) = false.
Proof.
  unfold strip_safe. intros H. rewrite csv_escape_spec. destruct (has_special s).
  - unfold ends_with_eol. rewrite back_wrap.
    change (Ascii.eqb ch_quote ch_cr || Ascii.eqb ch_quote ch_lf) with false.
    apply andb_false_r.
  - simpl in H. apply negb_true_iff in H. exact H.
Qed.

Lemma split_encoded (fields : list string) (cols : list string) :
  fields <> [] ->
  split_loop (String.concat "," (map csv_escape fields)) cols "" false
  = cols ++ map csv_escape fields.
Proof.
  revert cols. induction fields as [|f fields IH]; intros cols N; [contradiction|].
  destruct fields as [|g fields].
  - cbn [map String.concat].
    rewrite <- (sapp_nil_r (csv_escape f)) at 1.
    rewrite split_escaped. simpl. rewrite sapp_nil_l. reflexivity.
  - change (String.concat "," (map csv_escape (f :: g :: fields)))
      with (csv_escape f +:+ "," +:+ String.concat "," (map csv_escape (g :: fields))).
    rewrite split_escaped, split_comma, IH by discriminate.
    rewrite sapp_nil_l, <- List.app_assoc. reflexivity.
Qed.

(** X15. Record round trip for any number of fields: join the encoded
    fields with commas, split the line and decode each field, and the
    original fields come back: commas, quotes and newlines inside a field
    do no harm.  The one condition is that a field that needs no quotes
    does not end in a carriage return or newline. *)
Theorem split_unescape_roundtrip (fields : list string) :
  fields <> [] ->
  Forall (fun f => strip_safe f = true) fields ->
  map csv_unescape (csv_split_line (String.concat "," (map csv_escape fields)))
  = fields.
Proof.
  intros N F. unfold csv_split_line. rewrite split_encoded by exact N.
  rewrite app_nil_l. clear N.
  induction F as [|f fields H _ IH]; [reflexivity|].
  simpl. rewrite strip_eol_id by (apply ends_with_eol_escaped, H).
  rewrite csv_unescape_escape, IH. reflexivity.
Qed.

Lemma split_unescape_roundtrip_witness :
  let fields := ["a,b"; description ex_rent; description ex_newline; ""] in
  fields <> [] /\ Forall (fun f => strip_safe f = true) fields
  /\ map csv_unescape (csv_split_line (String.concat "," (map csv_escape fields)))
     = fields.
Proof.
  assert (N : ["a,b"; description ex_rent; description ex_newline; ""] <> [])
    by discriminate.
  assert (F : Forall (fun f => strip_safe f = true)
                ["a,b"; description ex_rent; description ex_newline; ""])
    by (repeat constructor).
  split; [exact N|]. split; [exact F|].
  exact (split_unescape_roundtrip _ N F).
Defined.

(** ** Files *)

Section FileProperties.

Variable stod : string -> option float.
Variable put_double : float -> string.

Lemma header_line_first (text : string) :
  getlines (header +:+ endl +:+ text) "" = header :: getlines text "".
Proof. rewrite getlines_line by reflexivity. rewrite sapp_nil_l. reflexivity. Qed.

Lemma omap_header (lines : list string) :
  omap (decode_line stod) (header :: lines) = omap (decode_line stod) lines.
Proof.
  change (omap (decode_line stod) (header :: lines))
    with (match decode_line stod header with
          | Some x => x :: omap (decode_line stod) lines
          | None => omap (decode_line stod) lines
          end).
  rewrite header_no_decode; [reflexivity|].
  rewrite <- (sapp_nil_r header) at 2. apply prefix_refl.
Qed.

(** X16. [save_csv] on a path that cannot be opened reports failure and
    leaves every file as it was.  Otherwise it reports success, the file
    holds the header line followed by one line per record, whatever it
    held before, no other file changes, and a [load_csv] from that path
    opens the file and gives the records the lines after the header decode
    to. *)
Theorem save_csv_effect (fs : FileSystem) (path : string)
    (expenses before : list Expense) :
  (writable fs path = false -> save_csv put_double fs path expenses = (false, fs))
  /\ (writable fs path = true ->
      fst (save_csv put_double fs path expenses) = true
      /\ files (snd (save_csv put_double fs path expenses)) !! path
         = Some (header +:+ endl +:+ rows put_double expenses)
      /\ (forall p, p <> path ->
            files (snd (save_csv put_double fs path expenses)) !! p = files fs !! p)
      /\ load_csv stod (snd (save_csv put_double fs path expenses)) path before
         = (true, omap (decode_line stod) (getlines (rows put_double expenses) ""))).
Proof.
  unfold save_csv. split; intros W; rewrite W; [reflexivity|]. cbn [negb fst snd].
  assert (E : files (write_file fs path
                       (fold_left (fun out e => out +:+ csv_row put_double e) expenses
                                  (header +:+ endl))) !! path
              = Some (header +:+ endl +:+ rows put_double expenses)).
  { unfold write_file. cbn [files].
    rewrite lookup_insert_eq, save_text_rows, sapp_assoc. reflexivity. }
  split; [reflexivity|]. split; [exact E|]. split.
  - intros p N. unfold write_file. cbn [files]. apply lookup_insert_ne. congruence.
  - rewrite (load_csv_opened stod _ path _ before E).
    rewrite header_line_first, omap_header. reflexivity.
Qed.

(** X17. The header line is optional: a file and the same file with the
    header line put in front, with either kind of line end, load the same
    records. *)
Theorem header_line_optional (fs1 fs2 fs3 : FileSystem) (p1 p2 p3 text : string)
    (st1 st2 st3 : list Expense) :
  files fs1 !! p1 = Some text ->
  files fs2 !! p2 = Some (header +:+ endl +:+ text) ->
  files fs3 !! p3 = Some (header +:+ crlf +:+ text) ->
  load_csv stod fs2 p2 st2 = load_csv stod fs1 p1 st1
  /\ load_csv stod fs3 p3 st3 = load_csv stod fs1 p1 st1.
Proof.
  intros H1 H2 H3.
  rewrite (load_csv_opened stod fs1 p1 text st1 H1).
  rewrite (load_csv_opened stod fs2 p2 _ st2 H2).
  rewrite (load_csv_opened stod fs3 p3 _ st3 H3).
  rewrite header_line_first, omap_header. split; [reflexivity|].
  unfold crlf.
  change (header +:+ String ch_cr (String ch_lf "") +:+ text)
    with ((header +:+ String ch_cr "") +:+ endl +:+ text).
  rewrite getlines_line by reflexivity. rewrite sapp_nil_l.
  change (omap (decode_line stod) ((header +:+ String ch_cr "") :: getlines text ""))
    with (match decode_line stod (header +:+ String ch_cr "") with
          | Some x => x :: omap (decode_line stod) (getlines text "")
          | None => omap (decode_line stod) (getlines text "")
          end).
  rewrite header_no_decode; [reflexivity|apply prefix_refl].
Qed.

Lemma decode_line_cr (line : string) :
  decode_line stod (line +:+ String ch_cr "") = decode_line stod line.
Proof.
  unfold decode_line. rewrite csv_split_line_eol by reflexivity. reflexivity.
Qed.

Lemma getlines_unlines (ls : list string) :
  Forall (fun l => contains ch_lf l = false) ls ->
  getlines (unlines endl ls) "" = ls
  /\ getlines (unlines crlf ls) "" = map (fun l => l +:+ String ch_cr "") ls.
Proof.
  induction 1 as [|l ls H _ [IH1 IH2]]; [split; reflexivity|].
  cbn [unlines fold_right map]. fold (unlines endl ls). fold (unlines crlf ls). split.
  - rewrite getlines_line by exact H. rewrite IH1, sapp_nil_l. reflexivity.
  - unfold crlf at 1.
    change (l +:+ String ch_cr (String ch_lf "") +:+ unlines crlf ls)
      with (l +:+ (String ch_cr "" +:+ endl) +:+ unlines crlf ls).
    rewrite <- !sapp_assoc, (sapp_assoc (l +:+ String ch_cr "")).
    rewrite getlines_line.
    + rewrite IH2, sapp_nil_l. reflexivity.
    + rewrite contains_app, H. reflexivity.
Qed.

(** X18. Line ends do not matter: a file whose lines end in carriage
    return and newline loads the same records as the file with the same
    lines ending in a newline alone. *)
Theorem crlf_file_loads_alike (fs1 fs2 : FileSystem) (p1 p2 : string)
    (ls : list string) (st1 st2 : list Expense) :
  Forall (fun l => contains ch_lf l = false) ls ->
  files fs1 !! p1 = Some (unlines endl ls) ->
  files fs2 !! p2 = Some (unlines crlf ls) ->
  load_csv stod fs2 p2 st2 = load_csv stod fs1 p1 st1.
Proof.
  intros F H1 H2.
  rewrite (load_csv_opened stod fs1 p1 _ st1 H1), (load_csv_opened stod fs2 p2 _ st2 H2).
  destruct (getlines_unlines ls F) as [-> ->]. f_equal.
  clear. induction ls as [|l ls IH]; [reflexivity|].
  cbn [map].
  change (omap (decode_line stod) ((l +:+ String ch_cr "")
                                   :: map (fun l0 => l0 +:+ String ch_cr "") ls))
    with (match decode_line stod (l +:+ String ch_cr "") with
          | Some x => x :: omap (decode_line stod) (map (fun l0 => l0 +:+ String ch_cr "") ls)
          | None => omap (decode_line stod) (map (fun l0 => l0 +:+ String ch_cr "") ls)
          end).
  rewrite decode_line_cr, IH. reflexivity.
Qed.

Lemma decode_line_date (line : string) (e : Expense) :
  decode_line stod line = Some e -> date_ok e.
Proof.
  unfold decode_line. destruct (4 <=? _)%nat; [|discriminate].
  destruct (parse_date _) as [dt|] eqn:P; simpl; [|discriminate].
  destruct (stod _); simpl; [|discriminate].
  intros H. injection H as <-. unfold date_ok. simpl.
  apply parse_date_valid in P as (_ & V & Y). split; assumption.
Qed.

Lemma load_csv_keeps_dates_valid_aux (fs : FileSystem) (path : string)
    (expenses : list Expense) :
  Forall date_ok expenses ->
  Forall date_ok (snd (load_csv stod fs path expenses)).
Proof.
  intros F. destruct (files fs !! path) as [text|] eqn:H.
  - rewrite (load_csv_opened stod fs path text expenses H). simpl.
    apply List.Forall_forall. intros e Hin.
    apply list_elem_of_In, list_elem_of_omap in Hin as (line & _ & D).
    exact (decode_line_date line e D).
  - unfold load_csv. rewrite H. exact F.
Qed.

(** X19. Loading keeps the dates of the store real: if every record of the
    store has a calendar-valid date with a year of at most 9999, so has
    every record after [load_csv], whatever the file holds and whether or
    not it opens. *)
Theorem load_csv_keeps_dates_valid (fs : FileSystem) (path : string)
    (expenses : list Expense) :
  Forall date_ok expenses ->
  Forall date_ok (snd (load_csv stod fs path expenses)).
Proof. apply load_csv_keeps_dates_valid_aux. Qed.

End FileProperties.

Lemma save_csv_effect_witness :
  writable fs_empty "" = false
  /\ save_csv StdText.put_double fs_empty "" [ex_food] = (false, fs_empty)
  /\ writable fs_empty "expenses.csv" = true
  /\ load_csv StdText.stod
       (snd (save_csv StdText.put_double fs_empty "expenses.csv" [ex_food; ex_newline]))
       "expenses.csv" [ex_rent]
     = (true, [ex_food; mkExpense (mkDate 2024 1 1) 5 "Food" (String ch_quote "a")]).
Proof.
  assert (W0 : writable fs_empty "" = false) by reflexivity.
  assert (W1 : writable fs_empty "expenses.csv" = true) by reflexivity.
  split; [exact W0|].
  split; [exact (proj1 (save_csv_effect StdText.stod StdText.put_double fs_empty ""
                          [ex_food] []) W0)|].
  split; [exact W1|].
  destruct (proj2 (save_csv_effect StdText.stod StdText.put_double fs_empty "expenses.csv"
                     [ex_food; ex_newline] [ex_rent]) W1) as (_ & _ & _ & L).
  rewrite L. reflexivity.
Defined.

Lemma header_line_optional_witness :
  files (fs_with ex_text) !! "expenses.csv" = Some ex_text
  /\ files (fs_with (header +:+ endl +:+ ex_text)) !! "expenses.csv"
     = Some (header +:+ endl +:+ ex_text)
  /\ files (fs_with (header +:+ crlf +:+ ex_text)) !! "expenses.csv"
     = Some (header +:+ crlf +:+ ex_text)
  /\ load_csv StdText.stod (fs_with (header +:+ endl +:+ ex_text)) "expenses.csv" []
     = load_csv StdText.stod (fs_with ex_text) "expenses.csv" [ex_rent].
Proof.
  assert (H1 : files (fs_with ex_text) !! "expenses.csv" = Some ex_text) by reflexivity.
  assert (H2 : files (fs_with (header +:+ endl +:+ ex_text)) !! "expenses.csv"
               = Some (header +:+ endl +:+ ex_text)) by reflexivity.
  assert (H3 : files (fs_with (header +:+ crlf +:+ ex_text)) !! "expenses.csv"
               = Some (header +:+ crlf +:+ ex_text)) by reflexivity.
  split; [exact H1|]. split; [exact H2|]. split; [exact H3|].
  exact (proj1 (header_line_optional StdText.stod _ _ _ _ _ _ _ [ex_rent] [] [] H1 H2 H3)).
Defined.

Lemma crlf_file_loads_alike_witness :
  Forall (fun l => contains ch_lf l = false) ex_crlf_lines
  /\ files (fs_with (unlines endl ex_crlf_lines)) !! "expenses.csv"
     = Some (unlines endl ex_crlf_lines)
  /\ files (fs_with (unlines crlf ex_crlf_lines)) !! "expenses.csv"
     = Some (unlines crlf ex_crlf_lines)
  /\ load_csv StdText.stod (fs_with (unlines crlf ex_crlf_lines)) "expenses.csv" []
     = (true, [ex_food]).
Proof.
  assert (F : Forall (fun l => contains ch_lf l = false) ex_crlf_lines)
    by (repeat constructor).
  assert (H1 : files (fs_with (unlines endl ex_crlf_lines)) !! "expenses.csv"
               = Some (unlines endl ex_crlf_lines)) by reflexivity.
  assert (H2 : files (fs_with (unlines crlf ex_crlf_lines)) !! "expenses.csv"
               = Some (unlines crlf ex_crlf_lines)) by reflexivity.
  split; [exact F|]. split; [exact H1|]. split; [exact H2|].
  rewrite (crlf_file_loads_alike StdText.stod _ _ _ _ _ [] [] F H1 H2). reflexivity.
Defined.

Lemma load_csv_keeps_dates_valid_witness :
  Forall date_ok [ex_food]
  /\ Forall date_ok (snd (load_csv StdText.stod (fs_with ex_negative_text) "expenses.csv"
                            [ex_food])).
Proof.
  assert (F : Forall date_ok [ex_food])
    by (repeat constructor; simpl; lia).
  split; [exact F|].
  exact (load_csv_keeps_dates_valid StdText.stod (fs_with ex_negative_text) "expenses.csv"
           [ex_food] F).
Defined.

(** ** Interactive entry and the menu loop *)

Section Interactive.

Variable stod : string -> option float.
Variable put_double : float -> string.

Lemma read_date_post (input rest : list string) (dt : Date) :
  read_date input = Some (dt, rest) ->
  valid_date dt = true /\ y dt <= 9999
  /\ exists used, input = used ++ rest /\ (1 <= length used)%nat.
Proof.
  induction input as [|ds input IH]; simpl; [discriminate|].
  destruct (parse_date ds) as [dt'|] eqn:P.
  - intros H. injection H as -> ->. apply parse_date_valid in P as (_ & V & Y).
    split; [exact V|]. split; [exact Y|]. exists [ds]. split; [reflexivity|simpl; lia].
  - intros H. destruct (IH H) as (V & Y & used & -> & L).
    split; [exact V|]. split; [exact Y|]. exists (ds :: used).
    split; [reflexivity|simpl; lia].
Qed.

Lemma read_amount_post (input rest : list string) (a : float) :
  read_amount stod input = Some (a, rest) ->
  exists used, input = used ++ rest /\ (1 <= length used)%nat.
Proof.
  induction input as [|s input IH]; simpl; [discriminate|].
  assert (K : read_amount stod input = Some (a, rest) ->
              exists used, s :: input = used ++ rest /\ (1 <= length used)%nat).
  { intros H. destruct (IH H) as (used & -> & L). exists (s :: used).
    split; [reflexivity|simpl; lia]. }
  destruct (stod s) as [a'|]; [|exact K].
  destruct (0 <=? a')%float; [|exact K].
  intros H. injection H as -> ->. exists [s]. split; [reflexivity|simpl; lia].
Qed.

Lemma read_line_post (input : list string) :
  exists used, input = used ++ snd (read_line input).
Proof.
  destruct input as [|s rest]; [exists []; reflexivity|exists [s]; reflexivity].
Qed.

Lemma prompt_expense_post (input rest : list string) (e : Expense) :
  prompt_expense stod input = Some (e, rest) ->
  date_ok e /\ category e <> ""
  /\ exists used, input = used ++ rest /\ (2 <= length used)%nat.
Proof.
  unfold prompt_expense.
  destruct (read_date input) as [[dt in1]|] eqn:D; [|discriminate].
  destruct (read_amount stod in1) as [[a in2]|] eqn:A; [|discriminate].
  destruct (read_line_post in2) as (u3 & E3).
  destruct (read_line in2) as [cat in3]. simpl in E3.
  destruct (read_line_post in3) as (u4 & E4).
  destruct (read_line in3) as [desc in4]. simpl in E4.
  intros H. injection H as <- <-.
  apply read_date_post in D as (V & Y & u1 & -> & L1).
  apply read_amount_post in A as (u2 & -> & L2).
  split; [split; assumption|]. split.
  - simpl. destruct (Z.eqb_spec (size cat) 0) as [|N]; [discriminate|].
    intros ->. apply N. reflexivity.
  - exists (u1 ++ u2 ++ u3 ++ u4). rewrite E3, E4, !length_app.
    split; [rewrite <- !List.app_assoc; reflexivity|lia].
Qed.

(** X20. A record [prompt_expense] returns has a calendar-valid date with
    a year of at most 9999 and a category that is not empty, and what is
    left of the input is the input without the lines read, of which there
    are at least two. *)
Theorem prompt_expense_result (input rest : list string) (e : Expense) :
  prompt_expense stod input = Some (e, rest) ->
  calendar_valid (y (date e)) (m (date e)) (d (date e))
  /\ y (date e) <= 9999
  /\ category e <> ""
  /\ exists used, input = used ++ rest /\ (2 <= length used)%nat.
Proof.
  intros H. apply prompt_expense_post in H as ([V Y] & C & U).
  split; [|split; [exact Y|split; [exact C|exact U]]].
  destruct (date e) as [yr mo dy]. apply valid_date_calendar, V.
Qed.

Lemma read_date_skips (bad rest : list string) (ds : string) (dt : Date) :
  Forall (fun l => parse_date l = None) bad ->
  parse_date ds = Some dt ->
  read_date (bad ++ ds :: rest) = Some (dt, rest).
Proof.
  intros F P. induction F as [|l bad H _ IH]; simpl.
  - rewrite P. reflexivity.
  - rewrite H. exact IH.
Qed.

Lemma read_amount_skips (bad rest : list string) (s : string) (a : float) :
  Forall (amount_rejected stod) bad ->
  stod s = Some a -> (0 <=? a)%float = true ->
  read_amount stod (bad ++ s :: rest) = Some (a, rest).
Proof.
  intros F P N. induction F as [|l bad H _ IH]; simpl.
  - rewrite P, N. reflexivity.
  - unfold amount_rejected in H. destruct (stod l) as [a'|]; [rewrite H|]; exact IH.
Qed.

(** X21. [prompt_expense] skips the lines that are no date until one is,
    then the lines that are no number or a negative one until one is an
    amount of at least 0, and takes the next two lines as category and
    description, an empty category becoming Uncategorized.  At the end of
    the input the category and the description are read as empty.  On an
    input without a line that is a date it never returns. *)
Theorem prompt_expense_skips_bad_lines (bad1 bad2 tail : list string)
    (ds s cat desc : string) (dt : Date) (a : float) :
  Forall (fun l => parse_date l = None) bad1 ->
  parse_date ds = Some dt ->
  Forall (amount_rejected stod) bad2 ->
  stod s = Some a -> (0 <=? a)%float = true ->
  prompt_expense stod (bad1 ++ ds :: bad2 ++ s :: cat :: desc :: tail)
  = Some (mkExpense dt a (if size cat =? 0 then "Uncategorized" else cat) desc, tail)
  /\ prompt_expense stod (bad1 ++ ds :: bad2 ++ [s])
     = Some (mkExpense dt a "Uncategorized" "", [])
  /\ prompt_expense stod bad1 = None.
Proof.
  intros F1 P F2 A N. unfold prompt_expense. split; [|split].
  - rewrite (read_date_skips bad1 _ ds dt F1 P).
    rewrite (read_amount_skips bad2 _ s a F2 A N). reflexivity.
  - rewrite (read_date_skips bad1 _ ds dt F1 P).
    rewrite (read_amount_skips bad2 _ s a F2 A N). reflexivity.
  - assert (R : read_date bad1 = None).
    { induction F1 as [|l bad H _ IH]; simpl; [reflexivity|]. rewrite H. exact IH. }
    rewrite R. reflexivity.
Qed.

(** More fuel than the input has lines is never used up. *)
Lemma main_loop_fuel (fuel1 fuel2 : nat) (input : list string) (s : Session) :
  (length input < fuel1)%nat -> (length input < fuel2)%nat ->
  main_loop stod put_double fuel1 input s = main_loop stod put_double fuel2 input s.
Proof.
  revert fuel2 input s. induction fuel1 as [|f1 IH]; intros fuel2 input s L1 L2; [lia|].
  destruct fuel2 as [|f2]; [lia|].
  destruct input as [|ch rest]; [reflexivity|]. simpl in L1, L2.
  cbn [main_loop].
  repeat match goal with
         | |- (if ?b then _ else _) = (if ?b then _ else _) => destruct b
         end;
    try reflexivity; try (apply IH; lia).
  - destruct (prompt_expense stod rest) as [[e rest1]|] eqn:P; [|reflexivity].
    apply prompt_expense_post in P as (_ & _ & used & -> & _).
    rewrite length_app in L1, L2. apply IH; lia.
  - unfold prompt_date.
    destruct (read_date rest) as [[from rest1]|] eqn:D1; [|reflexivity].
    destruct (read_date rest1) as [[to rest2]|] eqn:D2; [|reflexivity].
    apply read_date_post in D1 as (_ & _ & u1 & -> & _).
    apply read_date_post in D2 as (_ & _ & u2 & -> & _).
    rewrite !length_app in L1, L2. apply IH; lia.
  - destruct (read_line_post rest) as (u & E). unfold prompt_line.
    assert (length (snd (read_line rest)) <= length rest)%nat
      by (rewrite E at 2; rewrite length_app; lia).
    apply IH; lia.
  - destruct (read_line_post rest) as (u & E). unfold prompt_line.
    assert (length (snd (read_line rest)) <= length rest)%nat
      by (rewrite E at 2; rewrite length_app; lia).
    apply IH; lia.
  - destruct (read_line_post rest) as (u & E). unfold prompt_line.
    destruct (read_line rest) as [path rest1]. simpl in E.
    assert (length rest1 <= length rest)%nat by (rewrite E, length_app; lia).
    apply IH; lia.
  - destruct (read_line_post rest) as (u & E). unfold prompt_line.
    destruct (read_line rest) as [path rest1]. simpl in E.
    assert (length rest1 <= length rest)%nat by (rewrite E, length_app; lia).
    apply IH; lia.
Qed.

Lemma main_loop_dates (fuel : nat) (input : list string) (s s' : Session) :
  Forall date_ok (store s) ->
  main_loop stod put_double fuel input s = Some s' ->
  Forall date_ok (store s').
Proof.
  revert input s. induction fuel as [|f IH]; intros input s F; [discriminate|].
  destruct input as [|ch rest]; [discriminate|]. cbn [main_loop].
  repeat match goal with
         | |- (if ?b then _ else _) = _ -> _ => destruct b
         end;
    try (apply IH; exact F).
  - destruct (prompt_expense stod rest) as [[e rest1]|] eqn:P; [|discriminate].
    apply IH. simpl. unfold add. apply Forall_app. split; [exact F|].
    constructor; [|constructor]. apply prompt_expense_post in P as (D & _). exact D.
  - destruct (prompt_date rest) as [[from rest1]|]; [|discriminate].
    destruct (prompt_date rest1) as [[to rest2]|]; [|discriminate].
    apply IH. exact F.
  - destruct (prompt_line rest) as [path rest1]. apply IH. exact F.
  - destruct (prompt_line rest) as [path rest1]. apply IH. simpl.
    apply load_csv_keeps_dates_valid_aux. exact F.
  - intros H. injection H as <-. exact F.
Qed.

Lemma main_loop_disk (fuel : nat) (input : list string) (s s' : Session) :
  main_loop stod put_double fuel input s = Some s' ->
  writable (disk s') = writable (disk s)
  /\ forall p, writable (disk s) p = false -> files (disk s') !! p = files (disk s) !! p.
Proof.
  revert input s. induction fuel as [|f IH]; intros input s; [discriminate|].
  destruct input as [|ch rest]; [discriminate|]. cbn [main_loop].
  repeat match goal with
         | |- (if ?b then _ else _) = _ -> _ => destruct b
         end;
    try (apply IH).
  - destruct (prompt_expense stod rest) as [[e rest1]|]; [|discriminate].
    intros H. apply IH in H. exact H.
  - destruct (prompt_date rest) as [[from rest1]|]; [|discriminate].
    destruct (prompt_date rest1) as [[to rest2]|]; [|discriminate]. apply IH.
  - destruct (prompt_line rest) as [path rest1]. intros H. apply IH in H as [W F].
    cbn [disk] in W, F. unfold save_csv in W, F.
    destruct (writable (disk s) path) eqn:Wp; cbn [negb snd] in W, F; [|split; assumption].
    split; [exact W|]. intros p Hp. rewrite (F p Hp).
    unfold write_file. cbn [files]. apply lookup_insert_ne. congruence.
  - destruct (prompt_line rest) as [path rest1]. intros H. apply IH in H. exact H.
  - intros H. injection H as <-. split; reflexivity.
Qed.

Lemma main_loop_quit (fuel : nat) (input : list string) (s s' : Session) :
  main_loop stod put_double fuel input s = Some s' ->
  In "9" input \/ In "q" input \/ In "Q" input.
Proof.
  assert (K : forall used rest : list string,
            In "9" rest \/ In "q" rest \/ In "Q" rest ->
            In "9" (used ++ rest) \/ In "q" (used ++ rest) \/ In "Q" (used ++ rest)).
  { intros used rest H. rewrite !in_app_iff. tauto. }
  revert input s. induction fuel as [|f IH]; intros input s; [discriminate|].
  destruct input as [|ch rest]; [discriminate|]. cbn [main_loop].
  repeat match goal with
         | |- (if ?b then _ else _) = _ -> _ => destruct b eqn:?
         end;
    try (intros H; apply IH in H; apply (K [ch] rest H)).
  - destruct (prompt_expense stod rest) as [[e rest1]|] eqn:P; [|discriminate].
    intros H. apply IH in H. apply prompt_expense_post in P as (_ & _ & used & -> & _).
    apply (K (ch :: used) rest1 H).
  - unfold prompt_date.
    destruct (read_date rest) as [[from rest1]|] eqn:D1; [|discriminate].
    destruct (read_date rest1) as [[to rest2]|] eqn:D2; [|discriminate].
    intros H. apply IH in H.
    apply read_date_post in D1 as (_ & _ & u1 & -> & _).
    apply read_date_post in D2 as (_ & _ & u2 & -> & _).
    apply (K (ch :: u1) _ (K u2 _ H)).
  - intros H. apply IH in H. destruct (read_line_post rest) as (u & E).
    unfold prompt_line in H. rewrite E. apply (K (ch :: u) _ H).
  - intros H. apply IH in H. destruct (read_line_post rest) as (u & E).
    unfold prompt_line in H. rewrite E. apply (K (ch :: u) _ H).
  - destruct (read_line_post rest) as (u & E). unfold prompt_line.
    destruct (read_line rest) as [path rest1]. simpl in E.
    intros H. apply IH in H. rewrite E. apply (K (ch :: u) _ H).
  - destruct (read_line_post rest) as (u & E). unfold prompt_line.
    destruct (read_line rest) as [path rest1]. simpl in E.
    intros H. apply IH in H. rewrite E. apply (K (ch :: u) _ H).
  - intros _. simpl.
    match goal with
    | Q : (_ || _ || _) = true |- _ =>
        apply orb_true_iff in Q as [Q|Q]; [apply orb_true_iff in Q as [Q|Q]|];
        apply String.eqb_eq in Q; subst ch; tauto
    end.
Qed.

(** X22. Every record in the store when [main] ends has a calendar-valid
    date with a year of at most 9999: records come from [prompt_expense]
    and from [load_csv] only, and both build their dates with
    [parse_date]. *)
Theorem main_keeps_dates_valid (input : list string) (fs : FileSystem) (s : Session) :
  main stod put_double input fs = Some s -> Forall date_ok (store s).
Proof.
  unfold main. intros H.
  apply (main_loop_dates (S (length input)) input (mkSession [] fs) s);
    [constructor|exact H].
Qed.

Lemma main_loop_nil (fuel : nat) (s : Session) :
  main_loop stod put_double fuel [] s = None.
Proof. destruct fuel; reflexivity. Qed.

(** The loop of [main] is the iteration of [menu_step]. *)
Lemma main_loop_step (fuel : nat) (input : list string) (s : Session) :
  main_loop stod put_double (S fuel) input s
  = match menu_step stod put_double input s with
    | Quit => Some s
    | Continue rest s' => main_loop stod put_double fuel rest s'
    | Never => None
    end.
Proof.
  destruct input as [|ch rest]; [symmetry; apply main_loop_nil|].
  cbn [main_loop menu_step].
  repeat match goal with
         | |- (if ?b then _ else _) = _ => destruct b
         end;
    try reflexivity.
  - destruct (prompt_expense stod rest) as [[e rest1]|]; reflexivity.
  - destruct (prompt_date rest) as [[from rest1]|]; [|reflexivity].
    destruct (prompt_date rest1) as [[to rest2]|]; reflexivity.
  - destruct (prompt_line rest) as [path rest1]. reflexivity.
  - destruct (prompt_line rest) as [path rest1]. reflexivity.
Qed.

Lemma menu_step_disk (input rest : list string) (s s' : Session) :
  menu_step stod put_double input s = Continue rest s' ->
  disk s' = match input with
            | ch :: after =>
                if String.eqb ch "7"
                then snd (save_csv put_double (disk s) (fst (prompt_line after)) (store s))
                else disk s
            | [] => disk s
            end.
Proof.
  destruct input as [|ch after]; [intros H; injection H as _ <-; reflexivity|].
  cbn [menu_step].
  destruct (String.eqb ch "1") eqn:E1.
  { apply String.eqb_eq in E1. subst ch. cbn [String.eqb Ascii.eqb].
    destruct (prompt_expense stod after) as [[e rest1]|]; [|discriminate].
    intros H. injection H as _ <-. reflexivity. }
  destruct (String.eqb ch "2") eqn:E2.
  { apply String.eqb_eq in E2. subst ch. intros H. injection H as _ <-. reflexivity. }
  destruct (String.eqb ch "3") eqn:E3.
  { apply String.eqb_eq in E3. subst ch.
    destruct (prompt_date after) as [[from rest1]|]; [|discriminate].
    destruct (prompt_date rest1) as [[to rest2]|]; [|discriminate].
    intros H. injection H as _ <-. reflexivity. }
  destruct (String.eqb ch "4") eqn:E4.
  { apply String.eqb_eq in E4. subst ch. intros H. injection H as _ <-. reflexivity. }
  destruct (String.eqb ch "5") eqn:E5.
  { apply String.eqb_eq in E5. subst ch. intros H. injection H as _ <-. reflexivity. }
  destruct (String.eqb ch "6") eqn:E6.
  { apply String.eqb_eq in E6. subst ch. intros H. injection H as _ <-. reflexivity. }
  destruct (String.eqb ch "7") eqn:E7.
  { destruct (prompt_line after) as [path rest1]. intros H. injection H as _ <-.
    reflexivity. }
  destruct (String.eqb ch "8") eqn:E8.
  { destruct (prompt_line after) as [path rest1]. intros H. injection H as _ <-.
    reflexivity. }
  destruct (String.eqb ch "9" || String.eqb ch "q" || String.eqb ch "Q"); [discriminate|].
  intros H. injection H as _ <-. reflexivity.
Qed.

(** X23. [main] changes files through the save choice only.  Its loop is
    the iteration of [menu_step]; an iteration that goes on leaves the
    files as they are unless the line read as the menu choice is 7, and
    then it leaves them as [save_csv] does for the store and the path read
    next.  So a path that cannot be opened for writing holds at the end
    what it held at the start, and which paths can be written stays as it
    was. *)
Theorem main_writes_by_save_only (fuel : nat) (input : list string) (s : Session) :
  main_loop stod put_double (S fuel) input s
  = match menu_step stod put_double input s with
    | Quit => Some s
    | Continue rest s' => main_loop stod put_double fuel rest s'
    | Never => None
    end
  /\ (forall rest s',
        menu_step stod put_double input s = Continue rest s' ->
        disk s' = match input with
                  | ch :: after =>
                      if String.eqb ch "7"
                      then snd (save_csv put_double (disk s)
                                  (fst (prompt_line after)) (store s))
                      else disk s
                  | [] => disk s
                  end)
  /\ (forall fs s',
        main stod put_double input fs = Some s' ->
        writable (disk s') = writable fs
        /\ forall p, writable fs p = false -> files (disk s') !! p = files fs !! p).
Proof.
  split; [apply main_loop_step|].
  split; [intros rest s'; apply (menu_step_disk input rest s s')|].
  intros fs s' H. unfold main in H. apply main_loop_disk in H. exact H.
Qed.

Lemma menu_step_quit (input : list string) (s : Session) :
  menu_step stod put_double input s = Quit
  <-> exists ch rest, input = ch :: rest /\ quit_choice ch.
Proof.
  split.
  - destruct input as [|ch rest]; [discriminate|]. cbn [menu_step].
    repeat match goal with
           | |- (if ?b then _ else _) = _ -> _ => destruct b eqn:?
           end;
      try discriminate.
    + destruct (prompt_expense stod rest) as [[e rest1]|]; discriminate.
    + destruct (prompt_date rest) as [[from rest1]|]; [|discriminate].
      destruct (prompt_date rest1) as [[to rest2]|]; discriminate.
    + destruct (prompt_line rest) as [path rest1]. discriminate.
    + destruct (prompt_line rest) as [path rest1]. discriminate.
    + intros _. exists ch, rest. split; [reflexivity|]. unfold quit_choice.
      match goal with
      | Q : (_ || _ || _) = true |- _ =>
          apply orb_true_iff in Q as [Q|Q]; [apply orb_true_iff in Q as [Q|Q]|];
          apply String.eqb_eq in Q; tauto
      end.
  - intros (ch & rest & -> & [-> | [-> | ->]]); reflexivity.
Qed.

Lemma menu_step_shorter (ch : string) (after rest : list string) (s s' : Session) :
  menu_step stod put_double (ch :: after) s = Continue rest s' ->
  (length rest <= length after)%nat.
Proof.
  cbn [menu_step].
  repeat match goal with
         | |- (if ?b then _ else _) = _ -> _ => destruct b
         end;
    try (intros H; injection H as <- _; lia); try discriminate.
  - destruct (prompt_expense stod after) as [[e rest1]|] eqn:P; [|discriminate].
    intros H. injection H as <- _.
    apply prompt_expense_post in P as (_ & _ & used & -> & _). rewrite length_app. lia.
  - unfold prompt_date.
    destruct (read_date after) as [[from rest1]|] eqn:D1; [|discriminate].
    destruct (read_date rest1) as [[to rest2]|] eqn:D2; [|discriminate].
    intros H. injection H as <- _.
    apply read_date_post in D1 as (_ & _ & u1 & -> & _).
    apply read_date_post in D2 as (_ & _ & u2 & -> & _).
    rewrite !length_app. lia.
  - intros H. injection H as <- _. destruct (read_line_post after) as (u & E).
    unfold prompt_line. rewrite E at 2. rewrite length_app. lia.
  - intros H. injection H as <- _. destruct (read_line_post after) as (u & E).
    unfold prompt_line. rewrite E at 2. rewrite length_app. lia.
  - destruct (read_line_post after) as (u & E). unfold prompt_line.
    destruct (read_line after) as [path rest1]. simpl in E.
    intros H. injection H as <- _. rewrite E, length_app. lia.
  - destruct (read_line_post after) as (u & E). unfold prompt_line.
    destruct (read_line after) as [path rest1]. simpl in E.
    intros H. injection H as <- _. rewrite E, length_app. lia.
Qed.

Lemma steps_nil (n : nat) (s : Session) :
  steps stod put_double n [] s = Some ([], s).
Proof. induction n as [|n IH]; [reflexivity|]. simpl. exact IH. Qed.

Lemma main_loop_steps (fuel : nat) (input : list string) (s s' : Session) :
  main_loop stod put_double fuel input s = Some s' ->
  exists n ch rest,
    steps stod put_double n input s = Some (ch :: rest, s') /\ quit_choice ch.
Proof.
  revert input s. induction fuel as [|f IH]; intros input s; [discriminate|].
  rewrite main_loop_step.
  destruct (menu_step stod put_double input s) as [|rest1 s1|] eqn:M; [| |discriminate].
  - intros H. injection H as <-. apply menu_step_quit in M as (ch & rest & -> & Q).
    exists 0%nat, ch, rest. split; [reflexivity|exact Q].
  - intros H. destruct (IH _ _ H) as (n & ch & rest & St & Q).
    exists (Datatypes.S n), ch, rest. split; [|exact Q]. cbn [steps]. rewrite M. exact St.
Qed.

Lemma steps_main_loop (n fuel : nat) (input rest : list string) (ch : string)
    (s s' : Session) :
  steps stod put_double n input s = Some (ch :: rest, s') -> quit_choice ch ->
  (length input < fuel)%nat ->
  main_loop stod put_double fuel input s = Some s'.
Proof.
  revert fuel input s. induction n as [|n IH]; intros fuel input s St Q L.
  - injection St as -> ->. destruct fuel as [|f]; [lia|].
    rewrite main_loop_step.
    rewrite (proj2 (menu_step_quit (ch :: rest) s')); [reflexivity|].
    exists ch, rest. split; [reflexivity|exact Q].
  - cbn [steps] in St.
    destruct (menu_step stod put_double input s) as [|rest1 s1|] eqn:M; try discriminate.
    destruct input as [|c after].
    + injection M as <- <-. rewrite steps_nil in St. discriminate.
    + destruct fuel as [|f]; [lia|]. rewrite main_loop_step, M.
      apply (IH f rest1 s1 St Q). apply menu_step_shorter in M. simpl in L. lia.
Qed.

(** X24. [main] ends through the quit choice only: it returns a session
    exactly when, after some number of iterations that go on, the line
    read as the menu choice is 9, q or Q, and that session is the one
    reached then; an iteration ends the loop exactly when the line it
    reads as the menu choice is one of these.  So when [main] returns, one
    of the lines of the input is 9, q or Q, and on an input that runs out
    before such a choice it never returns. *)
Theorem main_ends_on_quit (input : list string) (fs : FileSystem) (s : Session) :
  (main stod put_double input fs = Some s
   <-> exists n ch rest,
         steps stod put_double n input (mkSession [] fs) = Some (ch :: rest, s)
         /\ quit_choice ch)
  /\ (forall inp s0,
        menu_step stod put_double inp s0 = Quit
        <-> exists ch rest, inp = ch :: rest /\ quit_choice ch)
  /\ (main stod put_double input fs = Some s ->
      In "9" input \/ In "q" input \/ In "Q" input).
Proof.
  split; [|split; [apply menu_step_quit|unfold main; apply main_loop_quit]].
  unfold main. split.
  - apply main_loop_steps.
  - intros (n & ch & rest & St & Q).
    apply (steps_main_loop n _ _ rest ch _ _ St Q). lia.
Qed.

End Interactive.

Lemma prompt_expense_result_witness :
  prompt_expense StdText.stod ["2024-02-30"; "2024-01-15"; "-3"; "42.5"; ""; "Groceries"; "9"]
  = Some (mkExpense (mkDate 2024 1 15) 42.5 "Uncategorized" "Groceries", ["9"])
  /\ calendar_valid 2024 1 15
  /\ category (mkExpense (mkDate 2024 1 15) 42.5 "Uncategorized" "Groceries") <> "".
Proof.
  assert (H : prompt_expense StdText.stod
                ["2024-02-30"; "2024-01-15"; "-3"; "42.5"; ""; "Groceries"; "9"]
              = Some (mkExpense (mkDate 2024 1 15) 42.5 "Uncategorized" "Groceries", ["9"]))
    by reflexivity.
  destruct (prompt_expense_result StdText.stod _ _ _ H) as (V & _ & C & _).
  split; [exact H|]. split; [exact V|exact C].
Defined.

Lemma prompt_expense_skips_bad_lines_witness :
  Forall (fun l => parse_date l = None) ["2024-02-30"; "yesterday"]
  /\ parse_date "2024-01-15" = Some (mkDate 2024 1 15)
  /\ Forall (amount_rejected StdText.stod) ["-3"; "much"]
  /\ StdText.stod "42.5" = Some 42.5%float /\ (0 <=? 42.5)%float = true
  /\ prompt_expense StdText.stod
       (["2024-02-30"; "yesterday"] ++ "2024-01-15" :: ["-3"; "much"]
        ++ "42.5" :: "" :: "Groceries" :: ["9"])
     = Some (mkExpense (mkDate 2024 1 15) 42.5 "Uncategorized" "Groceries", ["9"]).
Proof.
  assert (F1 : Forall (fun l => parse_date l = None) ["2024-02-30"; "yesterday"])
    by (repeat constructor).
  assert (P : parse_date "2024-01-15" = Some (mkDate 2024 1 15)) by reflexivity.
  assert (F2 : Forall (amount_rejected StdText.stod) ["-3"; "much"])
    by (repeat constructor; vm_compute; reflexivity).
  assert (A : StdText.stod "42.5" = Some 42.5%float) by reflexivity.
  assert (N : (0 <=? 42.5)%float = true) by reflexivity.
  split; [exact F1|]. split; [exact P|]. split; [exact F2|]. split; [exact A|].
  split; [exact N|].
  exact (proj1 (prompt_expense_skips_bad_lines StdText.stod _ _ ["9"] _ _ "" "Groceries"
                  _ _ F1 P F2 A N)).
Defined.

Lemma main_keeps_dates_valid_witness :
  main StdText.stod StdText.put_double ex_session fs_empty
  = Some (mkSession [ex_food] (fs_with (header +:+ endl +:+ "2024-01-15,42.5,Food,Groceries" +:+ endl)))
  /\ Forall date_ok [ex_food].
Proof.
  assert (H : main StdText.stod StdText.put_double ex_session fs_empty
              = Some (mkSession [ex_food]
                        (fs_with (header +:+ endl +:+ "2024-01-15,42.5,Food,Groceries"
                                  +:+ endl))))
    by reflexivity.
  split; [exact H|].
  exact (main_keeps_dates_valid StdText.stod StdText.put_double _ _ _ H).
Defined.

Lemma main_writes_by_save_only_witness :
  menu_step StdText.stod StdText.put_double ["2"; "7"; "expenses.csv"; "q"]
    (mkSession [ex_food] fs_empty)
  = Continue ["7"; "expenses.csv"; "q"] (mkSession [ex_food] fs_empty)
  /\ menu_step StdText.stod StdText.put_double ["7"; "expenses.csv"; "q"]
       (mkSession [ex_food] fs_empty)
     = Continue ["q"]
         (mkSession [ex_food]
            (snd (save_csv StdText.put_double fs_empty "expenses.csv" [ex_food])))
  /\ main StdText.stod StdText.put_double ["7"; ""; "7"; "expenses.csv"; "q"] fs_empty
     = Some (mkSession [] (fs_with (header +:+ endl)))
  /\ writable fs_empty "" = false
  /\ files (fs_with (header +:+ endl)) !! "" = files fs_empty !! "".
Proof.
  assert (M2 : menu_step StdText.stod StdText.put_double
                 ["2"; "7"; "expenses.csv"; "q"] (mkSession [ex_food] fs_empty)
               = Continue ["7"; "expenses.csv"; "q"] (mkSession [ex_food] fs_empty))
    by reflexivity.
  assert (M7 : menu_step StdText.stod StdText.put_double
                 ["7"; "expenses.csv"; "q"] (mkSession [ex_food] fs_empty)
               = Continue ["q"]
                   (mkSession [ex_food]
                      (snd (save_csv StdText.put_double fs_empty "expenses.csv"
                              [ex_food]))))
    by reflexivity.
  assert (H : main StdText.stod StdText.put_double ["7"; ""; "7"; "expenses.csv"; "q"]
                fs_empty
              = Some (mkSession [] (fs_with (header +:+ endl))))
    by reflexivity.
  assert (W : writable fs_empty "" = false) by reflexivity.
  split; [exact M2|]. split; [exact M7|]. split; [exact H|]. split; [exact W|].
  exact (proj2 (proj2 (proj2 (main_writes_by_save_only StdText.stod StdText.put_double 0
                                ["7"; ""; "7"; "expenses.csv"; "q"]
                                (mkSession [] fs_empty))) fs_empty _ H) "" W).
Defined.

Lemma main_ends_on_quit_witness :
  steps StdText.stod StdText.put_double 3 ["2"; "5"; "q"; "x"; "Q"; "1"]
    (mkSession [] fs_empty)
  = Some (["Q"; "1"], mkSession [] fs_empty)
  /\ quit_choice "Q"
  /\ main StdText.stod StdText.put_double ["2"; "5"; "q"; "x"; "Q"; "1"] fs_empty
     = Some (mkSession [] fs_empty)
  /\ main StdText.stod StdText.put_double ["5"; "q"] fs_empty = None.
Proof.
  assert (S : steps StdText.stod StdText.put_double 3 ["2"; "5"; "q"; "x"; "Q"; "1"]
                (mkSession [] fs_empty)
              = Some (["Q"; "1"], mkSession [] fs_empty))
    by reflexivity.
  assert (Q : quit_choice "Q") by (right; right; reflexivity).
  split; [exact S|]. split; [exact Q|]. split; [|reflexivity].
  apply (proj1 (main_ends_on_quit StdText.stod StdText.put_double
                  ["2"; "5"; "q"; "x"; "Q"; "1"] fs_empty (mkSession [] fs_empty))).
  exists 3%nat, "Q", ["1"]. split; [exact S|exact Q].
Defined.

(** ** Sizes of encoded fields, queries after [add], single days *)

Lemma double_quotes_length (s : string) :
  String.length (double_quotes s) = (String.length s + count_char ch_quote s)%nat.
Proof.
  induction s as [|c s IH]; [reflexivity|].
  cbn [double_quotes count_char]. destruct (Ascii.eqb c ch_quote); simpl; rewrite IH; lia.
Qed.

Lemma undouble_length (s : string) :
  (String.length (undouble s) <= String.length s)%nat.
Proof.
  assert (H : forall n s, (String.length s <= n)%nat ->
            (String.length (undouble s) <= String.length s)%nat).
  { induction n as [|n IH]; intros t L.
    - destruct t; simpl in *; lia.
    - destruct t as [|c [|c2 t]]; [simpl; lia|simpl; lia|].
      rewrite undouble_cons2. simpl in L.
      destruct (Ascii.eqb c ch_quote && Ascii.eqb c2 ch_quote).
      + specialize (IH t ltac:(lia)). simpl. lia.
      + specialize (IH (String c2 t) ltac:(simpl; lia)). simpl in *. lia. }
  apply (H (String.length s)). lia.
Qed.

(** X25. [csv_escape] lengthens a text that needs quotes by two plus the
    number of its quote characters and leaves the length of any other
    text; [csv_unescape] never lengthens a text, and leaves a text without
    a quote character as it is. *)
Theorem csv_field_lengths (s : string) :
  String.length (csv_escape s)
  = (if has_special s then String.length s + count_char ch_quote s + 2
     else String.length s)%nat
  /\ (String.length (csv_unescape s) <= String.length s)%nat
  /\ (contains ch_quote s = false -> csv_unescape s = s).
Proof.
  split; [|split].
  - rewrite csv_escape_spec. destruct (has_special s); [|reflexivity].
    unfold wrap_quotes. simpl. rewrite slength_app, double_quotes_length. simpl. lia.
  - rewrite csv_unescape_spec. destruct (quote_wrapped s); [|lia].
    pose proof (undouble_length (inner s)) as U.
    unfold inner, substr in *. rewrite pop_back_length in U.
    pose proof (substring_length_le 1 (String.length s - 1) s). lia.
  - intros H. rewrite csv_unescape_spec.
    destruct (quote_wrapped s) eqn:W; [|reflexivity].
    unfold quote_wrapped in W. apply andb_true_iff in W as [W B].
    apply andb_true_iff in W as [L _]. apply Z.leb_le in L.
    rewrite (back_contains ch_quote s) in H; [discriminate|lia|exact B].
Qed.

Lemma csv_field_lengths_witness :
  contains ch_quote "plain text" = false /\ csv_unescape "plain text" = "plain text".
Proof.
  assert (H : contains ch_quote "plain text" = false) by reflexivity.
  split; [exact H|].
  exact (proj2 (proj2 (csv_field_lengths "plain text")) H).
Defined.

(** X26. A record added to the store comes last in every later query that
    it matches and changes nothing else in the results; [total] grows by
    its amount. *)
Theorem queries_after_add (e : Expense) (expenses : list Expense)
    (from to : Date) (cat q : string) :
  filter_by_date_range from to (add e expenses)
  = filter_by_date_range from to expenses ++ (if in_range from to e then [e] else [])
  /\ filter_by_category cat (add e expenses)
     = filter_by_category cat expenses ++ (if iequals (category e) cat then [e] else [])
  /\ search q (add e expenses)
     = search q expenses
       ++ (if icontains (category e) q || icontains (description e) q then [e] else [])
  /\ total (add e expenses) = (total expenses + amount e)%float.
Proof.
  unfold add.
  rewrite !filter_by_date_range_filter, !filter_by_category_filter, !search_filter.
  rewrite !List.filter_app. simpl. unfold total. rewrite fold_left_app.
  repeat split.
Qed.


